(** * Export snapshot orchestrator ([src/components/plot-container.js])

    A shallow embedding of the [PlotContainer] component: the values it
    derives from its props ([isSplit], [size], [scale], [mapProps],
    [mapContainers]) as pure functions, and its callbacks and effects
    ([retrieveNewScreenShot], the debounced [onMapRender], the two
    [useEffect] hooks) as transitions of a small event-loop state. *)

From Stdlib Require Import ZArith QArith Qcanon Lia.
From stdpp Require Import base numbers option list strings gmap.

Local Open Scope Z_scope.

(** ** JavaScript numbers

    A Number is modelled as an exact rational extended with [NaN] and the
    two infinities.  Rounding to binary64 and the sign of zero are not
    modelled; everything the component does with numbers (truthiness,
    [>], [*], [/], [+]) is written out on this type. *)

Inductive number : Type :=
  | NaN
  | NegInfinity
  | PosInfinity
  | Finite (q : Qc).

Definition num (z : Z) : number := Finite (Q2Qc (inject_Z z)).
Definition ratio_of (a : Z) (b : positive) : number := Finite (Q2Qc (a # b)).

Definition Qc_is_zero (q : Qc) : bool := bool_decide (q = 0%Qc).
Definition Qc_pos (q : Qc) : bool := bool_decide (0 < q)%Qc.

(** [ToBoolean] on a Number: [0] and [NaN] are falsy. *)
Definition truthy (x : number) : bool :=
  match x with
  | NaN => false
  | Finite q => negb (Qc_is_zero q)
  | NegInfinity | PosInfinity => true
  end.

(** [x > y]; any comparison with [NaN] is false. *)
Definition gt (x y : number) : bool :=
  match x, y with
  | NaN, _ | _, NaN => false
  | NegInfinity, _ => false
  | _, PosInfinity => false
  | PosInfinity, _ => true
  | Finite _, NegInfinity => true
  | Finite a, Finite b => bool_decide (b < a)%Qc
  end.

(** [x >= y]. *)
Definition ge (x y : number) : bool :=
  match x, y with
  | NaN, _ | _, NaN => false
  | PosInfinity, _ => true
  | _, NegInfinity => true
  | NegInfinity, _ => false
  | Finite _, PosInfinity => false
  | Finite a, Finite b => bool_decide (b <= a)%Qc
  end.

Definition neg_inf_if (b : bool) : number :=
  if b then NegInfinity else PosInfinity.

(** [x * y]. *)
Definition mul (x y : number) : number :=
  match x, y with
  | NaN, _ | _, NaN => NaN
  | Finite a, Finite b => Finite (a * b)
  | Finite a, PosInfinity | PosInfinity, Finite a =>
      if Qc_is_zero a then NaN else neg_inf_if (negb (Qc_pos a))
  | Finite a, NegInfinity | NegInfinity, Finite a =>
      if Qc_is_zero a then NaN else neg_inf_if (Qc_pos a)
  | PosInfinity, PosInfinity | NegInfinity, NegInfinity => PosInfinity
  | PosInfinity, NegInfinity | NegInfinity, PosInfinity => NegInfinity
  end.

(** [x / y]; a zero divisor is read as [+0]. *)
Definition div (x y : number) : number :=
  match x, y with
  | NaN, _ | _, NaN => NaN
  | Finite a, Finite b =>
      if Qc_is_zero b
      then (if Qc_is_zero a then NaN else neg_inf_if (negb (Qc_pos a)))
      else Finite (a / b)
  | Finite _, (PosInfinity | NegInfinity) => Finite 0
  | PosInfinity, Finite b => neg_inf_if (negb (Qc_pos b || Qc_is_zero b))
  | NegInfinity, Finite b => neg_inf_if (Qc_pos b || Qc_is_zero b)
  | (PosInfinity | NegInfinity), (PosInfinity | NegInfinity) => NaN
  end.

(** [x + y]. *)
Definition add (x y : number) : number :=
  match x, y with
  | NaN, _ | _, NaN => NaN
  | Finite a, Finite b => Finite (a + b)
  | PosInfinity, NegInfinity | NegInfinity, PosInfinity => NaN
  | PosInfinity, _ | _, PosInfinity => PosInfinity
  | NegInfinity, _ | _, NegInfinity => NegInfinity
  end.

(** The truthy values among a Number or [undefined]: what [if (v)] and
    [v || d] let through. *)
Definition truthy_value (v : option number) : option number :=
  match v with
  | Some x => if truthy x then Some x else None
  | None => None
  end.

(** [v || d] where [v] is a Number or [undefined]. *)
Definition or_else (v : option number) (d : number) : number :=
  default d (truthy_value v).

(** ** Props of the component *)

(** [exportImageSetting.imageSize]: every field may be [undefined]. *)
Record imageSize : Type := ImageSize {
  imageW : option number;
  imageH : option number;
  imageSize_scale : option number
}.

(** [exportImageSetting]; [imageSize] itself may be absent, in which case
    the destructuring default [{}] applies. *)
Record exportImageSetting : Type := ExportImageSetting {
  setting_imageSize : option imageSize;
  legend : bool;
  ratio : string;
  resolution : string
}.

Definition empty_imageSize : imageSize := ImageSize None None None.

(** [const {imageSize = {}, ...} = exportImageSetting]. *)
Definition imageSize_of (s : exportImageSetting) : imageSize :=
  default empty_imageSize (setting_imageSize s).

Record size_t : Type := Size { size_width : number; size_height : number }.

(** [size]: [{width: imageSize.imageW || 1, height: imageSize.imageH || 1}]. *)
Definition size (s : exportImageSetting) : size_t :=
  {| size_width := or_else (imageW (imageSize_of s)) (num 1);
     size_height := or_else (imageH (imageSize_of s)) (num 1) |}.

(** ** Collaborators

    What the component imports and does not define: the helpers of
    [utils/export-utils], [utils/map-style-utils] and
    [utils/notifications-utils], [Math.log2], and the kinds of value it
    only passes along. *)

Class Collaborators : Type := {
  (** a map style, as [scaleMapStyleByResolution] takes and returns it *)
  style : Type;
  (** the [layers] of one entry of [splitMaps] *)
  layers : Type;
  (** any value the component passes through without looking at it *)
  field : Type;
  (** the DOM node behind [plottingAreaRef] *)
  node : Type;
  (** what [convertToPng] resolves to, and what it rejects with *)
  imageData : Type;
  error : Type;
  (** what [addNotification] takes *)
  notification : Type;
  getScaleFromImageSize :
    option number -> option number -> number -> number -> number;
  scaleMapStyleByResolution : style -> number -> style;
  log2 : number -> number;
  exportImageError : error -> notification
}.

Section Props.
Context `{Collaborators}.

(** [mapFields.mapState]: the fields the component reads, and the rest. *)
Record mapState_t : Type := MapState {
  mapState_width : number;
  mapState_height : number;
  zoom : number;
  mapState_isSplit : bool;
  mapState_rest : gmap string field
}.

(** [mapFields.mapStyle]. *)
Record mapStyle_t : Type := MapStyle {
  bottomMapStyle : style;
  topMapStyle : style;
  mapStyle_rest : gmap string field
}.

Record mapLegend_t : Type := MapLegend { show : bool; active : bool }.
Record mapControls_t : Type := MapControls { mapLegend : mapLegend_t }.

Record glOptions_t : Type :=
  GlOptions { preserveDrawingBuffer : bool; useDevicePixels : bool }.
Record deckGlProps_t : Type := DeckGlProps { glOptions : glOptions_t }.

(** The values found under the keys of a props object; [VUndefined] is
    a property that is there with the value [undefined]. *)
Inductive value : Type :=
  | VUndefined
  | VMapState (s : mapState_t)
  | VMapStyle (s : mapStyle_t)
  | VMapControls (c : mapControls_t)
  | VStaticMap
  | VOnMapRender (debounced : nat)
  | VBool (b : bool)
  | VDeckGlProps (d : deckGlProps_t)
  | VIndex (i : nat)
  | VLayers (l : layers)
  | VField (x : field).

(** [mapFields]: an object that has [mapState] and [mapStyle], and
    whatever else the caller put there. *)
Record mapFields_t : Type := MapFields {
  mapState : mapState_t;
  mapStyle : mapStyle_t;
  mapFields_rest : gmap string value
}.

(** The own properties of [mapFields], as the spread [...mapFields]
    copies them. *)
Definition fields_of (f : mapFields_t) : gmap string value :=
  <["mapStyle" := VMapStyle (mapStyle f)]>
    (<["mapState" := VMapState (mapState f)]> (mapFields_rest f)).

Record splitMap : Type := SplitMap { splitMap_layers : layers }.

(** ** Derived values

    Every [useMemo] below is recomputed when a value it reads changes
    ([mapProps] on every render, as [onMapRender] is new on every render),
    so the memoised values are these functions of the current props. *)

(** [isSplit]: [splitMaps && splitMaps.length > 1]. *)
Definition isSplit (splitMaps : option (list splitMap)) : bool :=
  match splitMaps with
  | None => false
  | Some l => bool_decide (1 < length l)%nat
  end.

(** [scale]. *)
Definition scale (s : exportImageSetting) (ms : mapState_t) : number :=
  let imageSize := imageSize_of s in
  match truthy_value (imageSize_scale imageSize) with
  | Some explicit => explicit
  | None =>
      let tmpScale :=
        getScaleFromImageSize (imageW imageSize) (imageH imageSize)
          (mul (mapState_width ms)
               (if mapState_isSplit ms then num 2 else num 1))
          (mapState_height ms) in
      if gt tmpScale (num 0) then tmpScale else num 1
  end.

Definition deckGlProps : deckGlProps_t :=
  {| glOptions :=
       {| preserveDrawingBuffer := true; useDevicePixels := false |} |}.

(** [mapProps]; [onMapRender] names the debounced function this render
    created.  Keys written after the spread [...mapFields] replace the
    caller's. *)
Definition mapProps (s : exportImageSetting) (f : mapFields_t)
    (splitMaps : option (list splitMap)) (onMapRender : nat)
    : gmap string value :=
  let scale := scale s (mapState f) in
  let size := size s in
  let isSplit := isSplit splitMaps in
  <["deckGlProps" := VDeckGlProps deckGlProps]>
  (<["isExport" := VBool true]>
  (<["onMapRender" := VOnMapRender onMapRender]>
  (<["MapComponent" := VStaticMap]>
  (<["mapControls" :=
       VMapControls
         {| mapLegend := {| show := legend s; active := true |} |}]>
  (<["mapState" :=
       VMapState
         {| mapState_width :=
              div (size_width size) (if isSplit then num 2 else num 1);
            mapState_height := size_height size;
            zoom :=
              add (zoom (mapState f))
                  (or_else (Some (log2 scale)) (num 0));
            mapState_isSplit := mapState_isSplit (mapState f);
            mapState_rest := mapState_rest (mapState f) |}]>
  (<["mapStyle" :=
       VMapStyle
         {| bottomMapStyle :=
              scaleMapStyleByResolution (bottomMapStyle (mapStyle f)) scale;
            topMapStyle :=
              scaleMapStyleByResolution (topMapStyle (mapStyle f)) scale;
            mapStyle_rest := mapStyle_rest (mapStyle f) |}]>
  (fields_of f))))))).

(** A [<MapContainer ... />] element: what React makes the key of the
    element from (it keeps the string form of this value), the ref it
    attaches, and the props the map view gets. *)
Record element : Type := Element {
  key : option value;
  ref : option value;
  props : gmap string value
}.

(** The attributes React takes out of the props of an element. *)
Definition RESERVED_PROPS : list string :=
  ["key"; "ref"; "__self"; "__source"].

(** [config.key !== undefined], [config.ref !== undefined]. *)
Definition defined (v : option value) : option value :=
  match v with
  | Some VUndefined => None
  | _ => v
  end.

(** [React.createElement(MapContainer, config)], which a JSX element with
    a spread compiles to: a defined [key] and [ref] of the attributes
    become the key and the ref of the element, and every other attribute
    that is not reserved becomes a prop. *)
Definition createElement (config : gmap string value) : element :=
  {| key := defined (config !! "key");
     ref := defined (config !! "ref");
     props := foldr delete config RESERVED_PROPS |}.

(** The element of one pane of the split view: [key] and [index] are
    written before the spread, so a [key] or [index] among the spread
    props wins over them; [mapLayers] is written after it. *)
Definition pane (mapProps : gmap string value) (index : nat)
    (entry : splitMap) : element :=
  createElement
    (<["mapLayers" := VLayers (splitMap_layers entry)]>
       (mapProps ∪ <["key" := VIndex index]> {["index" := VIndex index]})).

(** What [splitMaps.map] builds at [index]; reading [.layers] of a
    [splitMaps[index]] that is out of range would be a [TypeError]
    ([None]). *)
Definition splitContainer (mapProps : gmap string value)
    (splitMaps : list splitMap) (index : nat) : option element :=
  pane mapProps index <$> splitMaps !! index.

(** [mapContainers]: the elements rendered inside the plotting area. *)
Definition mapContainers (mapProps : gmap string value)
    (splitMaps : option (list splitMap)) : option (list element) :=
  if negb (isSplit splitMaps) then
    Some [ createElement (mapProps ∪ {["index" := VIndex 0]}) ]
  else
    l ← splitMaps;
    mapM (splitContainer mapProps l) (seq 0 (length l)).
End Props.

(** ** Callbacks and effects

    The component's side effects are the calls it makes to its callback
    props and to [convertToPng].  They are recorded, with the time of the
    call, in the state of a small event loop that also holds what the
    closures of the component share: the ref, the timers of the debounced
    functions and the promises still pending.

    An exception is modelled where the component itself handles it: what
    [setExportImageDataUri] throws is caught by the [catch] chained after
    [then].  An exception of [setExportingImage], [setExportImageError] or
    [addNotification] would leave the component, and these are taken to
    return normally. *)

Definition DEBOUNCE_DELAY_MS : Z := 500.

(** [ELEMENT_FILTER_FUNC], on the class name of the node. *)
Definition ELEMENT_FILTER_FUNC (className : string) : bool :=
  negb (String.eqb className "mapboxgl-control-container").

(** The map that a map view hands to [onMapRender]; [isStyledLoaded] is
    what the method returns when called at a given time. *)
Record mapInstance : Type := MapInstance { isStyledLoaded : Z -> bool }.

(** The dependency list [[ratio, resolution, legend]]. *)
Definition deps_of (s : exportImageSetting) : string * string * bool :=
  (ratio s, resolution s, legend s).

Inductive lifecycle : Type :=
  | Initial
  | Mounted (deps : string * string * bool)
  | Unmounted.

Section Orchestrator.
Context `{Collaborators}.

Inductive call : Type :=
  | SetExportingImage
  | ConvertToPng (n : node) (filter : string -> bool)
  | SetExportImageDataUri (d : imageData)
  | SetExportImageError (e : error)
  | AddNotification (n : notification).

(** How a promise settles. *)
Inductive settled (A : Type) : Type :=
  | Fulfilled (a : A)
  | Rejected (e : error).
Arguments Fulfilled {A} a.
Arguments Rejected {A} e.

Record state : Type := State {
  (** milliseconds on the clock of the event loop *)
  now : Z;
  (** [plottingAreaRef.current] *)
  plottingAreaRef : option node;
  (** mounted or not, and the dependencies the last commit recorded *)
  phase : lifecycle;
  (** the debounced functions, one per render in the order of creation,
      each with its running timer: the time it fires and [lastArgs] *)
  debounced : list (option (Z * mapInstance));
  (** the nodes whose [convertToPng] promise has not settled yet *)
  inFlight : list node;
  (** the calls made so far *)
  calls : list (Z * call)
}.

Definition initial : state :=
  {| now := 0; plottingAreaRef := None; phase := Initial;
     debounced := []; inFlight := []; calls := [] |}.

Definition record_call (c : call) (s : state) : state :=
  {| now := now s; plottingAreaRef := plottingAreaRef s; phase := phase s;
     debounced := debounced s; inFlight := inFlight s;
     calls := calls s ++ [(now s, c)] |}.

Definition setExportingImage : state -> state :=
  record_call SetExportingImage.
Definition setExportImageDataUri (d : imageData) : state -> state :=
  record_call (SetExportImageDataUri d).
Definition setExportImageError (e : error) : state -> state :=
  record_call (SetExportImageError e).
Definition addNotification (n : notification) : state -> state :=
  record_call (AddNotification n).

(** [convertToPng(node, {filter})]: the call is made and its promise is
    pending. *)
Definition convertToPng (n : node) (filter : string -> bool) (s : state)
    : state :=
  let s := record_call (ConvertToPng n filter) s in
  {| now := now s; plottingAreaRef := plottingAreaRef s; phase := phase s;
     debounced := debounced s; inFlight := inFlight s ++ [n];
     calls := calls s |}.

(** [p.then(onFulfilled)]: the handler runs on the value of a fulfilled
    promise, and what it throws, if it throws, rejects the promise that
    [then] returns. *)
Definition then_ {A} (onFulfilled : A -> state -> option error * state)
    (p : settled A) (s : state) : settled unit * state :=
  match p with
  | Fulfilled a =>
      match onFulfilled a s with
      | (Some thrown, s') => (Rejected thrown, s')
      | (None, s') => (Fulfilled tt, s')
      end
  | Rejected e => (Rejected e, s)
  end.

(** [p.catch(onRejected)], for a handler that returns normally. *)
Definition catch_ {A} (onRejected : error -> state -> state)
    (p : settled A * state) : settled unit * state :=
  match p with
  | (Fulfilled _, s) => (Fulfilled tt, s)
  | (Rejected e, s) => (Fulfilled tt, onRejected e s)
  end.

(** The handlers [retrieveNewScreenShot] chains on the promise of
    [convertToPng], run when it settles: [.then(setExportImageDataUri)]
    and, on what that returns, [.catch(err => ...)].  [thrown] is what the
    call of [setExportImageDataUri] throws, if it throws. *)
Definition handlers (thrown : option error) (p : settled imageData)
    (s : state) : state :=
  snd (catch_
         (fun err s =>
            addNotification (exportImageError err)
              (setExportImageError err s))
         (then_ (fun data s => (thrown, setExportImageDataUri data s)) p s)).

(** [retrieveNewScreenShot]. *)
Definition retrieveNewScreenShot (s : state) : state :=
  match plottingAreaRef s with
  | Some current =>
      convertToPng current ELEMENT_FILTER_FUNC (setExportingImage s)
  | None => s
  end.

(** The function [onMapRender] debounces. *)
Definition onMapRenderCallback (map : mapInstance) (s : state) : state :=
  if isStyledLoaded map (now s) then retrieveNewScreenShot s else s.

(** *** [debounce(func, wait)]

    lodash's [debounce] with its default options (trailing edge only): a
    call restarts the timer and remembers its arguments; when the timer
    runs out, [func] is called once, on the arguments of the last
    call. *)
Definition debounce_call (wait t : Z) (args : mapInstance)
    (timer : option (Z * mapInstance)) : option (Z * mapInstance) :=
  Some (t + wait, args).

(** The arguments to call [func] on, if the timer has run out at [t]. *)
Definition debounce_due (t : Z) (timer : option (Z * mapInstance))
    : option mapInstance :=
  match timer with
  | Some (deadline, args) =>
      if bool_decide (deadline <= t) then Some args else None
  | None => None
  end.

(** The timer after time [t]. *)
Definition debounce_expire (t : Z) (timer : option (Z * mapInstance))
    : option (Z * mapInstance) :=
  match timer with
  | Some (deadline, args) =>
      if bool_decide (deadline <= t) then None else timer
  | None => None
  end.

(** *** The life of one component instance *)

Inductive event : Type :=
  (** the first render is committed and the ref attached to [current] *)
  | Mount (current : node) (setting : exportImageSetting)
  (** a re-render with new props is committed *)
  | Update (setting : exportImageSetting)
  | Unmount
  (** a map view calls the [onMapRender] that render no. [onMapRender]
      passed down *)
  | MapRender (onMapRender : nat) (map : mapInstance)
  (** a millisecond passes *)
  | Tick
  (** the promise of the [promise]-th pending [convertToPng] settles and
      its handlers run; [thrown] is what [setExportImageDataUri] throws
      when they call it, if it throws *)
  | Settle (promise : nat) (p : settled imageData) (thrown : option error).

Definition set_phase (ph : lifecycle) (s : state) : state :=
  {| now := now s; plottingAreaRef := plottingAreaRef s; phase := ph;
     debounced := debounced s; inFlight := inFlight s; calls := calls s |}.

Definition set_ref (r : option node) (s : state) : state :=
  {| now := now s; plottingAreaRef := r; phase := phase s;
     debounced := debounced s; inFlight := inFlight s; calls := calls s |}.

Definition set_debounced (d : list (option (Z * mapInstance)))
    (s : state) : state :=
  {| now := now s; plottingAreaRef := plottingAreaRef s; phase := phase s;
     debounced := d; inFlight := inFlight s; calls := calls s |}.

Definition set_inFlight (l : list node) (s : state) : state :=
  {| now := now s; plottingAreaRef := plottingAreaRef s; phase := phase s;
     debounced := debounced s; inFlight := l; calls := calls s |}.

Definition set_now (t : Z) (s : state) : state :=
  {| now := t; plottingAreaRef := plottingAreaRef s; phase := phase s;
     debounced := debounced s; inFlight := inFlight s; calls := calls s |}.

(** The body of the component runs: [debounce(...)] makes a new
    debounced function, whose timer is not running. *)
Definition render (s : state) : state :=
  set_debounced (debounced s ++ [None]) s.

(** [useEffect(() => { setExportingImage(); }, [])]. *)
Definition effect_mount : state -> state := setExportingImage.

(** [useEffect(() => { retrieveNewScreenShot(); },
    [ratio, resolution, legend])]: runs after the first commit, and after
    a later one when a dependency differs from the last commit's. *)
Definition effect_settings (setting : exportImageSetting) (s : state)
    : state :=
  let s' := set_phase (Mounted (deps_of setting)) s in
  match phase s with
  | Mounted deps =>
      if bool_decide (deps_of setting = deps) then s'
      else retrieveNewScreenShot s'
  | _ => retrieveNewScreenShot s'
  end.

(** The debounced functions whose timer runs out fire, in the order of
    their creation. *)
Definition fire_timers (s : state) : state :=
  foldl (fun s map => onMapRenderCallback map s)
    (set_debounced (debounce_expire (now s) <$> debounced s) s)
    (omap (debounce_due (now s)) (debounced s)).

Definition step (s : state) (e : event) : state :=
  match e with
  | Mount current setting =>
      match phase s with
      | Initial =>
          effect_settings setting
            (effect_mount (set_ref (Some current) (render s)))
      | _ => s
      end
  | Update setting =>
      match phase s with
      | Mounted _ => effect_settings setting (render s)
      | _ => s
      end
  | Unmount =>
      match phase s with
      | Mounted _ => set_phase Unmounted (set_ref None s)
      | _ => s
      end
  | MapRender onMapRender map =>
      (* a number that names no debounced function changes nothing *)
      set_debounced
        (alter (debounce_call DEBOUNCE_DELAY_MS (now s) map) onMapRender
           (debounced s)) s
  | Tick => fire_timers (set_now (now s + 1) s)
  | Settle promise p thrown =>
      match inFlight s !! promise with
      | Some _ =>
          handlers thrown p (set_inFlight (delete promise (inFlight s)) s)
      | None => s
      end
  end.

Definition run (s : state) (events : list event) : state :=
  foldl step s events.

(** The [convertToPng] calls among [cs]: the capture attempts. *)
Definition is_capture (c : Z * call) : bool :=
  match c.2 with ConvertToPng _ _ => true | _ => false end.

Definition captureAttempts (s : state) : nat :=
  length (filter is_capture (calls s)).
End Orchestrator.

Arguments Fulfilled {_ _} a.
Arguments Rejected {_ _} e.

(** ** Notions used in the statements *)

(** An image dimension that is missing or zero. *)
Definition missing_or_zero (v : option number) : Prop :=
  v = None \/ v = Some (num 0).

(** What [scale] passes to [getScaleFromImageSize], and gets back. *)
Definition derivedScale `{Collaborators} (s : exportImageSetting)
    (ms : mapState_t) : number :=
  getScaleFromImageSize (imageW (imageSize_of s)) (imageH (imageSize_of s))
    (if mapState_isSplit ms then mul (mapState_width ms) (num 2)
     else mapState_width ms)
    (mapState_height ms).

(** The keys [mapProps] writes after the spread of [mapFields]. *)
Definition overridden : list string :=
  ["mapStyle"; "mapState"; "mapControls"; "MapComponent"; "onMapRender";
   "isExport"; "deckGlProps"].

(** The number of entries of [splitMaps], 0 when it is absent. *)
Definition paneCount `{Collaborators} (splitMaps : option (list splitMap))
    : nat :=
  match splitMaps with Some l => length l | None => 0%nat end.

(** The calls of one capture attempt made at time [t]. *)
Definition attempt `{Collaborators} (t : Z) (current : option node)
    : list (Z * call) :=
  match current with
  | Some n =>
      [(t, SetExportingImage); (t, ConvertToPng n ELEMENT_FILTER_FUNC)]
  | None => []
  end.


(** No debounced function has its timer running. *)
Definition quiet `{Collaborators} (s : state) : Prop :=
  debounced s = replicate (length (debounced s)) None.

(** [n] debounced functions of which at most the [k]-th has its timer
    running. *)
Definition timers (n k : nat) (timer : option (Z * mapInstance))
    : list (option (Z * mapInstance)) :=
  <[k := timer]> (replicate n None).

(** The timer does not run out at or before [t]. *)
Definition waits (t : Z) (timer : option (Z * mapInstance)) : Prop :=
  match timer with
  | Some (deadline, _) => t < deadline
  | None => True
  end.

(** Render-completion signals on one debounced [onMapRender], each followed
    by a number of milliseconds without a signal. *)
Definition signals `{Collaborators} (onMapRender : nat)
    (sigs : list (mapInstance * nat)) : list event :=
  sigs ≫= (fun sg => MapRender onMapRender sg.1 :: replicate sg.2 Tick).

(** The milliseconds a sequence of signals takes. *)
Definition duration (sigs : list (mapInstance * nat)) : Z :=
  foldr (fun sg t => Z.of_nat sg.2 + t) 0 sigs.

(** ** Concrete collaborators and inputs

    Used to run the definitions on concrete inputs. *)

Definition pow2 (n : Z) : Qc :=
  if bool_decide (0 <= n) then Q2Qc (inject_Z (2 ^ n))
  else (1 / Q2Qc (inject_Z (2 ^ (- n))))%Qc.

(** For [0 < q], the [n] with [2^n <= q < 2^(n+1)]. *)
Definition log2_floor (q : Qc) : Z :=
  let n := Z.log2 (Qnum q) - Z.log2 (Zpos (Qden q)) in
  if bool_decide (pow2 n <= q)%Qc then n else n - 1.

(** A computable stand-in for [Math.log2]: it has the values ECMAScript
    prescribes ([NaN] at [NaN] and below zero, [-Infinity] at [0],
    [+Infinity] at [+Infinity], [0] at [1]), is exact on the powers of two
    and interpolates linearly between them. *)
Definition log2_stand_in (x : number) : number :=
  match x with
  | NaN | NegInfinity => NaN
  | PosInfinity => PosInfinity
  | Finite q =>
      if Qc_is_zero q then NegInfinity
      else if Qc_pos q then
        let n := log2_floor q in
        Finite (Q2Qc (inject_Z n) + (q / pow2 n - 1))%Qc
      else NaN
  end.

(** Modelled from the spec: [getScaleFromImageSize] is defined in
    [utils/export-utils], which is not among the sources; the spec
    describes it as a pure function returning the ratio of the requested
    image size to the current viewport size.  The stand-in takes the ratio
    of the widths ([undefined] converts to [NaN]). *)
Definition width_ratio (targetW targetH : option number)
    (currentW currentH : number) : number :=
  div (default NaN targetW) currentW.

(** Modelled from the spec: [scaleMapStyleByResolution] is defined in
    [utils/map-style-utils], which is not among the sources; the spec
    describes it as a pure function returning the style adjusted for the
    scale.  The stand-in keeps the name of the style and multiplies its
    resolution. *)
Definition scale_resolution (st : string * number) (scale : number)
    : string * number :=
  (st.1, mul st.2 scale).

Definition sample : Collaborators :=
  {| style := string * number;
     layers := list string;
     field := string;
     node := string;
     imageData := string;
     error := string;
     notification := string;
     getScaleFromImageSize := width_ratio;
     scaleMapStyleByResolution := scale_resolution;
     log2 := log2_stand_in;
     exportImageError := fun err => String.app "Image export failed: " err |}.

(** Settings with the given [imageW], [imageH] and [scale], the legend
    off. *)
Definition setting_of (w h sc : option number) : exportImageSetting :=
  {| setting_imageSize := Some (ImageSize w h sc);
     legend := false; ratio := "SCREEN"; resolution := "ONE_X" |}.

(** The same settings with the legend switched on. *)
Definition legend_on : exportImageSetting :=
  {| setting_imageSize := Some (ImageSize None None None);
     legend := true; ratio := "SCREEN"; resolution := "ONE_X" |}.

(** A viewport of 800 by 600 at zoom 3. *)
Definition sample_mapState (isSplit : bool) : @mapState_t sample :=
  {| mapState_width := num 800; mapState_height := num 600;
     zoom := num 3; mapState_isSplit := isSplit;
     mapState_rest := {["latitude" := "37.7"]} |}.

Definition sample_mapStyle : @mapStyle_t sample :=
  @MapStyle sample ("dark", num 1) ("labels", num 1)
    {["styleType" := "dark"]}.

(** [mapFields] in which the caller has its own [mapControls]. *)
Definition sample_mapFields : @mapFields_t sample :=
  @MapFields sample (sample_mapState false) sample_mapStyle
    (<["mapControls" := @VField sample "visibleLayers"]>
       {["layerBlending" := @VField sample "normal"]}).

Definition sample_splitMaps : list (@splitMap sample) :=
  [ @SplitMap sample ["points"]; @SplitMap sample ["arcs"] ].

(** A map whose style has loaded, and one whose style has not. *)
Definition loaded_map : mapInstance := {| isStyledLoaded := fun _ => true |}.
Definition loading_map : mapInstance := {| isStyledLoaded := fun _ => false |}.

(** The component, mounted on the node ["plot"] with the legend off. *)
Definition mounted : @state sample :=
  run initial [@Mount sample "plot" (setting_of None None None)].

(** Ten signals within 100 ms: nine of them 10 ms apart, then the last. *)
Definition rapid_fire (map : mapInstance) : list (mapInstance * nat) :=
  replicate 9 (map, 10%nat).

(** [rapid_fire] on the first [onMapRender], then [g] milliseconds. *)
Definition rapid_fire_then (map : mapInstance) (g : nat)
    : list (@event sample) :=
  signals 0 (rapid_fire map) ++ MapRender 0 map :: replicate g Tick.



(** ** Notions used in the further properties *)

(** The calls to [setExportingImage], [setExportImageDataUri],
    [setExportImageError] and [addNotification]. *)
Definition is_setExportingImage `{Collaborators} (c : Z * call) : bool :=
  match c.2 with SetExportingImage => true | _ => false end.
Definition is_dataUri `{Collaborators} (c : Z * call) : bool :=
  match c.2 with SetExportImageDataUri _ => true | _ => false end.
Definition is_error `{Collaborators} (c : Z * call) : bool :=
  match c.2 with SetExportImageError _ => true | _ => false end.
Definition is_notification `{Collaborators} (c : Z * call) : bool :=
  match c.2 with AddNotification _ => true | _ => false end.

(** How many of the calls made so far satisfy [p]. *)
Definition count `{Collaborators} (p : Z * call -> bool) (s : state) : nat :=
  length (filter p (calls s)).

(** 1 once the component has been mounted. *)
Definition mountedOnce (ph : lifecycle) : nat :=
  match ph with Initial => 0 | _ => 1 end.

(** The captures that are no longer pending. *)
Definition settledCaptures `{Collaborators} (s : state) : nat :=
  (captureAttempts s - length (inFlight s))%nat.

(** The books of the component balance: [setExportingImage] was called
    once at mount and once per capture attempt; every error was notified;
    no more captures are pending than were attempted, and the captures no
    longer pending are at least as many as the calls of
    [setExportImageDataUri], at least as many as the calls of
    [setExportImageError], and at most as many as both together. *)
Definition accounted `{Collaborators} (s : state) : Prop :=
  count is_setExportingImage s
    = (captureAttempts s + mountedOnce (phase s))%nat /\
  count is_notification s = count is_error s /\
  (length (inFlight s) <= captureAttempts s)%nat /\
  (count is_dataUri s <= settledCaptures s)%nat /\
  (count is_error s <= settledCaptures s)%nat /\
  (settledCaptures s <= count is_dataUri s + count is_error s)%nat.

(** An event other than the settling of a promise. *)
Definition not_Settle `{Collaborators} (e : event) : Prop :=
  match e with Settle _ _ _ => False | _ => True end.

(** Off a mounted component the ref is null. *)
Definition detached `{Collaborators} (s : state) : Prop :=
  match phase s with
  | Mounted _ => True
  | _ => plottingAreaRef s = None
  end.

(** Whether the timer, looked at at time [t], runs out within the next
    [g] milliseconds on a map whose style has loaded by then: 1 if so. *)
Definition due_attempts (t : Z) (g : nat) (timer : option (Z * mapInstance))
    : nat :=
  match timer with
  | Some (deadline, map) =>
      let fires := Z.max deadline (t + 1) in
      if bool_decide (fires <= t + Z.of_nat g) && isStyledLoaded map fires
      then 1 else 0
  | None => 0
  end.

(** Among the timers that have run out at [t], those on a map whose style
    has loaded. *)
Definition loaded_due (t : Z) (l : list (option (Z * mapInstance))) : nat :=
  length (filter (fun map => isStyledLoaded map t)
            (omap (debounce_due t) l)).

(** The component after a second render. *)
Definition rerendered : @state sample :=
  run mounted [@Update sample (setting_of None None None)].

(** A call that is no capture, or the capture of a node that satisfies
    [P] with the filter of the component. *)
Definition capture_of `{Collaborators} (P : node -> Prop) (c : Z * call)
    : Prop :=
  match c.2 with
  | ConvertToPng n filter => filter = ELEMENT_FILTER_FUNC /\ P n
  | _ => True
  end.

(** The component was mounted on [n] by one of the events. *)
Definition mounted_on `{Collaborators} (events : list event) (n : node)
    : Prop :=
  exists setting, Mount n setting ∈ events.

(** The ref points to a node that satisfies [P], and so did every
    capture. *)
Definition traced `{Collaborators} (P : node -> Prop) (s : state) : Prop :=
  (forall n, plottingAreaRef s = Some n -> P n) /\
  Forall (capture_of P) (calls s).

(** The component is unmounted 100 ms after a render-completion signal,
    while the timer of the signal is running. *)
Definition unmounting : list (@event sample) :=
  [@Mount sample "plot" (setting_of None None None);
   @MapRender sample 0 loaded_map] ++
  replicate 100 Tick ++ [@Unmount sample].

(** What may follow: the timer runs out, a render and another signal. *)
Definition afterwards : list (@event sample) :=
  replicate 600 Tick ++
  [@Update sample legend_on; @MapRender sample 0 loaded_map] ++
  replicate 600 Tick.

(** Props that carry a [key] of their own. *)
Definition props_with_key : gmap string (@value sample) :=
  {["key" := @VField sample "7"]}.

(** Props that carry [mapLayers] of their own. *)
Definition props_with_layers : gmap string (@value sample) :=
  {["mapLayers" := @VLayers sample ["all"]]}.

(** * Properties *)

(** ** Numbers *)

Lemma Qc_is_zero_spec (q : Qc) : Qc_is_zero q = true <-> q = 0%Qc.
Proof. unfold Qc_is_zero. apply bool_decide_eq_true. Qed.

Lemma mul_1_r (x : number) : mul x (num 1) = x.
Proof.
  destruct x as [| | |q]; try reflexivity.
  cbn. f_equal. apply Qcmult_1_r.
Qed.

Lemma div_1_r (x : number) : div x (num 1) = x.
Proof.
  destruct x as [| | |q]; try reflexivity.
  cbn. f_equal. unfold Qcdiv.
  replace (/ Q2Qc (inject_Z 1))%Qc with 1%Qc
    by (apply Qc_is_canon; reflexivity).
  apply Qcmult_1_r.
Qed.

Lemma gt_1_0 : gt (num 1) (num 0) = true.
Proof. reflexivity. Qed.

(** A number that is at least 1 is truthy. *)
Lemma ge_1_truthy (x : number) : ge x (num 1) = true -> truthy x = true.
Proof.
  destruct x as [| | |q]; cbn; try done.
  intros Hge. apply bool_decide_eq_true in Hge.
  apply negb_true_iff, bool_decide_eq_false.
  intros ->. revert Hge. apply Qclt_not_le. reflexivity.
Qed.

Lemma or_else_truthy (x d : number) :
  truthy x = true -> or_else (Some x) d = x.
Proof. unfold or_else, truthy_value. by intros ->. Qed.

Lemma or_else_falsy (x d : number) :
  truthy x = false -> or_else (Some x) d = d.
Proof. unfold or_else, truthy_value. by intros ->. Qed.

(** A falsy number other than [NaN] is [0]. *)
Lemma falsy_not_NaN (x : number) :
  truthy x = false -> x <> NaN -> x = num 0.
Proof.
  destruct x as [| | |q]; cbn; try done.
  intros Hz _. apply negb_false_iff, Qc_is_zero_spec in Hz. by subst.
Qed.

(** ** Size and scale *)

Lemma or_else_missing_or_zero (v : option number) (d : number) :
  missing_or_zero v -> or_else v d = d.
Proof. by intros [-> | ->]. Qed.

(** C5: when [imageW] and [imageH] are numbers that are at least 1, [size]
    is exactly [{width: imageW, height: imageH}]; a dimension that is
    missing or zero gives 1 for its component of [size]. *)
Theorem size_of_image_dimensions (s : exportImageSetting) :
  (forall w h : number,
     imageW (imageSize_of s) = Some w -> imageH (imageSize_of s) = Some h ->
     ge w (num 1) = true -> ge h (num 1) = true ->
     size s = {| size_width := w; size_height := h |}) /\
  (missing_or_zero (imageW (imageSize_of s)) ->
     size_width (size s) = num 1) /\
  (missing_or_zero (imageH (imageSize_of s)) ->
     size_height (size s) = num 1).
Proof.
  unfold size. split; [|split].
  - intros w h -> -> Hw Hh.
    by rewrite !or_else_truthy by by apply ge_1_truthy.
  - apply or_else_missing_or_zero.
  - apply or_else_missing_or_zero.
Qed.

Lemma size_of_image_dimensions_witness :
  size (setting_of (Some (num 1920)) (Some (num 1080)) None)
    = {| size_width := num 1920; size_height := num 1080 |} /\
  size_width (size (setting_of None (Some (num 1080)) None)) = num 1 /\
  size_height (size (setting_of (Some (num 1920)) (Some (num 0)) None))
    = num 1.
Proof.
  split; [|split].
  - apply (size_of_image_dimensions
             (setting_of (Some (num 1920)) (Some (num 1080)) None));
      reflexivity.
  - apply (size_of_image_dimensions (setting_of None (Some (num 1080)) None)).
    left; reflexivity.
  - apply (size_of_image_dimensions
             (setting_of (Some (num 1920)) (Some (num 0)) None)).
    right; reflexivity.
Defined.

Section Scale.
Context `{Collaborators}.

Lemma scale_unfold (s : exportImageSetting) (ms : mapState_t) :
  scale s ms =
    match truthy_value (imageSize_scale (imageSize_of s)) with
    | Some explicit => explicit
    | None =>
        if gt (derivedScale s ms) (num 0) then derivedScale s ms else num 1
    end.
Proof.
  unfold scale, derivedScale.
  destruct (mapState_isSplit ms); [done|]. by rewrite mul_1_r.
Qed.

(** C1 (amended): an explicit scale that is truthy is the scale, whatever
    its value; otherwise the scale is the value of
    [getScaleFromImageSize] (on the width doubled when
    [mapState.isSplit]) when that is greater than 0, and 1 when it is
    not, so that a derived scale is always greater than 0. *)
Theorem scale_explicit_or_positive (s : exportImageSetting)
    (ms : mapState_t) :
  (forall explicit : number,
     imageSize_scale (imageSize_of s) = Some explicit ->
     truthy explicit = true -> scale s ms = explicit) /\
  (truthy_value (imageSize_scale (imageSize_of s)) = None ->
     scale s ms =
       (if gt (derivedScale s ms) (num 0) then derivedScale s ms else num 1)
     /\ gt (scale s ms) (num 0) = true).
Proof.
  rewrite scale_unfold. split.
  - intros explicit He Ht. unfold truthy_value. by rewrite He, Ht.
  - intros ->. split; [done|].
    destruct (gt (derivedScale s ms) (num 0)) eqn:Hgt; [done|].
    apply gt_1_0.
Qed.
End Scale.

(** C1, as stated, fails: an explicit scale of 1/2 is the scale, and so is a
    ratio of 1/2 computed for a request half the size of the viewport. *)
Lemma scale_below_one :
  let explicit_half :=
    setting_of (Some (num 400)) (Some (num 300)) (Some (ratio_of 1 2)) in
  let half_size := setting_of (Some (num 400)) (Some (num 300)) None in
  @scale sample explicit_half (sample_mapState false) = ratio_of 1 2 /\
  @scale sample half_size (sample_mapState false) = ratio_of 1 2 /\
  ge (ratio_of 1 2) (num 1) = false.
Proof.
  vm_compute. repeat split; try reflexivity.
  f_equal. by apply Qc_is_canon.
Qed.

Lemma scale_explicit_or_positive_witness :
  @scale sample (setting_of None None (Some (num 2))) (sample_mapState true)
    = num 2 /\
  gt (@scale sample (setting_of (Some (num 400)) (Some (num 300)) None)
        (sample_mapState true)) (num 0) = true.
Proof.
  split.
  - apply (@scale_explicit_or_positive sample
             (setting_of None None (Some (num 2))) (sample_mapState true));
      reflexivity.
  - apply (@scale_explicit_or_positive sample
             (setting_of (Some (num 400)) (Some (num 300)) None)
             (sample_mapState true)).
    reflexivity.
Defined.

(** ** The props of the map views *)

Section MapProps.
Context `{Collaborators}.
Implicit Types (s : exportImageSetting) (f : mapFields_t).
Implicit Types (splitMaps : option (list splitMap)) (mp : gmap string value).

Lemma mapProps_mapState s f splitMaps k :
  mapProps s f splitMaps k !! "mapState" =
    Some (VMapState
      {| mapState_width :=
           div (size_width (size s))
               (if isSplit splitMaps then num 2 else num 1);
         mapState_height := size_height (size s);
         zoom := add (zoom (mapState f))
                     (or_else (Some (log2 (scale s (mapState f)))) (num 0));
         mapState_isSplit := mapState_isSplit (mapState f);
         mapState_rest := mapState_rest (mapState f) |}).
Proof. unfold mapProps. by simplify_map_eq. Qed.

Lemma mapProps_mapStyle s f splitMaps k :
  mapProps s f splitMaps k !! "mapStyle" =
    Some (VMapStyle
      {| bottomMapStyle :=
           scaleMapStyleByResolution (bottomMapStyle (mapStyle f))
             (scale s (mapState f));
         topMapStyle :=
           scaleMapStyleByResolution (topMapStyle (mapStyle f))
             (scale s (mapState f));
         mapStyle_rest := mapStyle_rest (mapStyle f) |}).
Proof. unfold mapProps. by simplify_map_eq. Qed.

Lemma mapProps_mapControls s f splitMaps k :
  mapProps s f splitMaps k !! "mapControls" =
    Some (VMapControls
            {| mapLegend := {| show := legend s; active := true |} |}).
Proof. unfold mapProps. by simplify_map_eq. Qed.

(** A key that [mapProps] does not write has the caller's value. *)
Lemma mapProps_other s f splitMaps k (key : string) :
  key ∉ overridden ->
  mapProps s f splitMaps k !! key = fields_of f !! key.
Proof.
  unfold overridden. rewrite !not_elem_of_cons.
  intros (? & ? & ? & ? & ? & ? & ? & _).
  unfold mapProps. by rewrite !lookup_insert_ne by done.
Qed.

(** [zoom + (Math.log2(scale) || 0)], by cases on the logarithm. *)
Lemma zoom_or_else (z l : number) :
  (l <> NaN -> add z (or_else (Some l) (num 0)) = add z l) /\
  (l = NaN -> add z (or_else (Some l) (num 0)) = add z (num 0)).
Proof.
  split.
  - intros Hl. destruct (truthy l) eqn:Ht.
    + by rewrite or_else_truthy.
    + rewrite or_else_falsy by done. by rewrite (falsy_not_NaN l).
  - by intros ->.
Qed.

(** C7 (amended): the props override the viewport so that the width is
    [size.width / 2] when split and [size.width] otherwise, the height is
    [size.height], and the zoom is the incoming zoom plus [log2(scale)],
    or plus 0 where [log2(scale)] is [NaN]; both map styles go through
    [scaleMapStyleByResolution] with the scale; the legend is shown as
    the [legend] setting says. *)
Theorem mapProps_overrides s f splitMaps k :
  exists (ms' : mapState_t) (st' : mapStyle_t) (c : mapControls_t),
    mapProps s f splitMaps k !! "mapState" = Some (VMapState ms') /\
    mapProps s f splitMaps k !! "mapStyle" = Some (VMapStyle st') /\
    mapProps s f splitMaps k !! "mapControls" = Some (VMapControls c) /\
    mapState_width ms' =
      (if isSplit splitMaps then div (size_width (size s)) (num 2)
       else size_width (size s)) /\
    mapState_height ms' = size_height (size s) /\
    (log2 (scale s (mapState f)) <> NaN ->
       zoom ms' = add (zoom (mapState f)) (log2 (scale s (mapState f)))) /\
    (log2 (scale s (mapState f)) = NaN ->
       zoom ms' = add (zoom (mapState f)) (num 0)) /\
    bottomMapStyle st' =
      scaleMapStyleByResolution (bottomMapStyle (mapStyle f))
        (scale s (mapState f)) /\
    topMapStyle st' =
      scaleMapStyleByResolution (topMapStyle (mapStyle f))
        (scale s (mapState f)) /\
    show (mapLegend c) = legend s.
Proof.
  eexists _, _, _.
  split; [apply mapProps_mapState|].
  split; [apply mapProps_mapStyle|].
  split; [apply mapProps_mapControls|].
  cbn. split; [|split; [done|]].
  { destruct (isSplit splitMaps); [done|apply div_1_r]. }
  split; [apply zoom_or_else|].
  split; [apply zoom_or_else|]. done.
Qed.

(** *** The elements *)

Lemma mapM_splitContainer mp (seen rest : list splitMap) :
  mapM (splitContainer mp (seen ++ rest)) (seq (length seen) (length rest))
    = Some (imap (fun i => pane mp (length seen + i)) rest).
Proof.
  revert seen. induction rest as [|entry rest IH]; intros seen; [done|].
  specialize (IH (seen ++ [entry])).
  rewrite <- app_assoc, length_app in IH. cbn in IH.
  rewrite Nat.add_1_r in IH.
  cbn [length seq mapM]. rewrite IH.
  unfold splitContainer.
  rewrite lookup_app_r, Nat.sub_diag by done. cbn.
  rewrite Nat.add_0_r. do 2 f_equal.
  apply imap_ext. intros i x _. cbn. f_equal. lia.
Qed.

Lemma mapContainers_single mp splitMaps :
  isSplit splitMaps = false ->
  mapContainers mp splitMaps =
    Some [ createElement (mp ∪ {["index" := VIndex 0]}) ].
Proof. unfold mapContainers. by intros ->. Qed.

(** An attribute that is not reserved is a prop of the element. *)
Lemma createElement_props (config : gmap string value) (name : string) :
  name ∉ RESERVED_PROPS ->
  props (createElement config) !! name = config !! name.
Proof.
  unfold RESERVED_PROPS. rewrite !not_elem_of_cons.
  intros (? & ? & ? & ? & _). cbn. by rewrite !lookup_delete_ne by done.
Qed.

(** A reserved attribute is not. *)
Lemma createElement_reserved (config : gmap string value) (name : string) :
  name ∈ RESERVED_PROPS -> props (createElement config) !! name = None.
Proof.
  unfold RESERVED_PROPS. rewrite !elem_of_cons, elem_of_nil.
  intros [->|[->|[->|[->|[]]]]]; cbn.
  - apply lookup_delete_eq.
  - rewrite lookup_delete_ne by done. apply lookup_delete_eq.
  - rewrite !lookup_delete_ne by done. apply lookup_delete_eq.
  - rewrite !lookup_delete_ne by done. apply lookup_delete_eq.
Qed.

Lemma mapLayers_not_reserved : "mapLayers" ∉ RESERVED_PROPS.
Proof.
  unfold RESERVED_PROPS. rewrite !not_elem_of_cons.
  repeat split; try done. apply not_elem_of_nil.
Qed.

Lemma mapContainers_split mp (l : list splitMap) :
  isSplit (Some l) = true ->
  mapContainers mp (Some l) = Some (imap (pane mp) l).
Proof.
  unfold mapContainers. intros ->. cbn.
  apply (mapM_splitContainer mp [] l).
Qed.

(** C2: with at most one entry in [splitMaps], or none at all, exactly
    one map view is made; with N > 1 entries exactly N are made, and the
    i-th gets [splitMaps[i].layers] as its [mapLayers]. *)
Theorem mapContainers_count mp splitMaps :
  ((paneCount splitMaps <= 1)%nat ->
     exists e : element, mapContainers mp splitMaps = Some [e]) /\
  ((1 < paneCount splitMaps)%nat ->
     exists es : list element,
       mapContainers mp splitMaps = Some es /\
       length es = paneCount splitMaps /\
       forall (i : nat) (entry : splitMap),
         (default [] splitMaps) !! i = Some entry ->
         exists e : element,
           es !! i = Some e /\
           props e !! "mapLayers" = Some (VLayers (splitMap_layers entry))).
Proof.
  split.
  - intros Hle. eexists. apply mapContainers_single.
    destruct splitMaps as [l|]; [|done]. cbn in *.
    apply bool_decide_eq_false. lia.
  - intros Hlt. destruct splitMaps as [l|]; cbn in Hlt; [|lia].
    exists (imap (pane mp) l). split; [|split].
    + apply mapContainers_split. cbn. by apply bool_decide_eq_true.
    + by rewrite length_imap.
    + intros i entry Hi. cbn in Hi. exists (pane mp i entry). split.
      * by rewrite list_lookup_imap, Hi.
      * unfold pane.
        rewrite createElement_props by apply mapLayers_not_reserved.
        apply lookup_insert_eq.
Qed.
End MapProps.

Section Frame.
Context `{Collaborators}.
Implicit Types (s : exportImageSetting) (f : mapFields_t).
Implicit Types (splitMaps : option (list splitMap)) (mp : gmap string value).

(** Every element is made by [createElement]. *)
Lemma element_created mp splitMaps (es : list element) (e : element) :
  mapContainers mp splitMaps = Some es -> e ∈ es ->
  exists config : gmap string value, e = createElement config.
Proof.
  intros Hes He. destruct (isSplit splitMaps) eqn:Hsplit.
  - destruct splitMaps as [l|]; [|done].
    rewrite mapContainers_split in Hes by done. injection Hes as <-.
    apply list_elem_of_lookup in He as [i Hi].
    rewrite list_lookup_imap in Hi.
    destruct (l !! i) as [entry|]; [|done]. injection Hi as <-.
    by eexists.
  - rewrite mapContainers_single in Hes by done. injection Hes as <-.
    apply list_elem_of_singleton in He as ->. by eexists.
Qed.

(** What a map view gets under a key that [mapProps] has, the reserved
    attributes and, in the split view, [mapLayers] apart. *)
Lemma element_props mp splitMaps (es : list element) (e : element)
    (name : string) (v : value) :
  mapContainers mp splitMaps = Some es -> e ∈ es ->
  name ∉ RESERVED_PROPS ->
  (isSplit splitMaps = true -> name <> "mapLayers") ->
  mp !! name = Some v ->
  props e !! name = Some v.
Proof.
  intros Hes He Hres Hname Hv. destruct (isSplit splitMaps) eqn:Hsplit.
  - destruct splitMaps as [l|]; [|done].
    rewrite mapContainers_split in Hes by done. injection Hes as <-.
    apply list_elem_of_lookup in He as [i Hi].
    rewrite list_lookup_imap in Hi.
    destruct (l !! i) as [entry|]; [|done]. injection Hi as <-.
    unfold pane. rewrite createElement_props by done.
    rewrite lookup_insert_ne by (intros <-; by apply Hname).
    by apply lookup_union_Some_l.
  - rewrite mapContainers_single in Hes by done. injection Hes as <-.
    apply list_elem_of_singleton in He as ->.
    rewrite createElement_props by done.
    by apply lookup_union_Some_l.
Qed.

Lemma mapState_not_reserved : "mapState" ∉ RESERVED_PROPS.
Proof.
  unfold RESERVED_PROPS. rewrite !not_elem_of_cons.
  repeat split; try done. apply not_elem_of_nil.
Qed.

(** C10 (amended): every map view gets the caller's value under each key
    of [mapFields] other than [mapState], [mapStyle], [mapControls],
    [MapComponent], [onMapRender], [isExport], [deckGlProps], the
    attributes React keeps for itself ([key], [ref], [__self],
    [__source]), which never reach the map view as props, and, in the
    split view, [mapLayers]; in the [mapState] it gets, the fields other
    than [width], [height] and [zoom] are those of the incoming
    [mapState]. *)
Theorem mapContainers_preserve_fields s f splitMaps k
    (es : list element) (e : element) :
  mapContainers (mapProps s f splitMaps k) splitMaps = Some es -> e ∈ es ->
  (forall (name : string) (v : value),
     name ∉ overridden -> name ∉ RESERVED_PROPS ->
     (isSplit splitMaps = true -> name <> "mapLayers") ->
     fields_of f !! name = Some v ->
     props e !! name = Some v) /\
  (forall name : string, name ∈ RESERVED_PROPS -> props e !! name = None) /\
  (exists ms' : mapState_t,
     props e !! "mapState" = Some (VMapState ms') /\
     mapState_isSplit ms' = mapState_isSplit (mapState f) /\
     mapState_rest ms' = mapState_rest (mapState f)).
Proof.
  intros Hes He. split; [|split].
  - intros name v Hname Hres Hlayers Hv.
    apply (element_props _ _ _ _ _ _ Hes He Hres Hlayers).
    by rewrite mapProps_other.
  - intros name Hres.
    destruct (element_created _ _ _ _ Hes He) as [config ->].
    by apply createElement_reserved.
  - eexists. split.
    + apply (element_props _ _ _ _ _ _ Hes He);
        [apply mapState_not_reserved|done|].
      apply mapProps_mapState.
    + done.
Qed.
End Frame.

(** C7, as stated, fails where [log2(scale)] is [NaN]: with an explicit
    scale of -2 the zoom stays 3, while 3 plus the logarithm is [NaN]. *)
Lemma zoom_where_log2_is_NaN :
  let s := setting_of (Some (num 400)) (Some (num 300)) (Some (num (-2))) in
  exists ms' : @mapState_t sample,
    @mapProps sample s sample_mapFields None 0 !! "mapState"
      = Some (VMapState ms') /\
    zoom ms' = num 3 /\
    add (zoom (mapState sample_mapFields))
        (@log2 sample (@scale sample s (mapState sample_mapFields))) = NaN.
Proof.
  eexists. split; [apply mapProps_mapState|]. split; [|reflexivity].
  vm_compute. reflexivity.
Qed.

Lemma mapProps_overrides_witness :
  let s := setting_of (Some (num 1600)) (Some (num 1200)) (Some (num 2)) in
  exists ms' : @mapState_t sample,
    @mapProps sample s sample_mapFields (Some sample_splitMaps) 0
      !! "mapState" = Some (VMapState ms') /\
    mapState_width ms' = div (num 1600) (num 2) /\
    zoom ms' = add (num 3) (log2_stand_in (num 2)).
Proof.
  intros s.
  destruct (@mapProps_overrides sample s sample_mapFields
              (Some sample_splitMaps) 0)
    as (ms' & st' & c & Hms & _ & _ & Hw & _ & Hz & _).
  exists ms'. split; [exact Hms|]. split; [exact Hw|].
  apply Hz. vm_compute. discriminate.
Defined.

Lemma mapContainers_count_witness :
  (exists e : @element sample,
     mapContainers ∅ (Some (take 1 sample_splitMaps)) = Some [e]) /\
  (exists es : list (@element sample),
     mapContainers ∅ (Some sample_splitMaps) = Some es /\ length es = 2%nat).
Proof.
  split.
  - apply (@mapContainers_count sample ∅ (Some (take 1 sample_splitMaps))).
    cbn. lia.
  - destruct (@mapContainers_count sample ∅ (Some sample_splitMaps))
      as [_ Hsplit].
    destruct Hsplit as (es & Hes & Hlen & _); [cbn; lia|].
    exists es. split; [exact Hes|exact Hlen].
Defined.

(** C10, as stated, fails: the caller's [mapControls] does not reach the
    map view, which gets the legend controls instead. *)
Lemma mapControls_replaced :
  let s := setting_of (Some (num 400)) (Some (num 300)) None in
  fields_of sample_mapFields !! "mapControls"
    = Some (@VField sample "visibleLayers") /\
  exists e : @element sample,
    mapContainers (mapProps s sample_mapFields None 0) None = Some [e] /\
    props e !! "mapControls"
      = Some (VMapControls
                {| mapLegend := {| show := false; active := true |} |}).
Proof.
  split; [reflexivity|].
  eexists. split; [reflexivity|]. rewrite createElement_props.
  - apply lookup_union_Some_l, mapProps_mapControls.
  - unfold RESERVED_PROPS. rewrite !not_elem_of_cons.
    repeat split; try done. apply not_elem_of_nil.
Qed.

Lemma mapContainers_preserve_fields_witness :
  let s := setting_of (Some (num 400)) (Some (num 300)) None in
  let mp := @mapProps sample s sample_mapFields (Some sample_splitMaps) 0 in
  props (pane mp 1 (@SplitMap sample ["arcs"])) !! "layerBlending"
    = Some (@VField sample "normal").
Proof.
  intros s mp.
  destruct (@mapContainers_preserve_fields sample s sample_mapFields
              (Some sample_splitMaps) 0
              (imap (pane mp) sample_splitMaps)
              (pane mp 1 (@SplitMap sample ["arcs"]))) as [Hkeys _].
  - by apply mapContainers_split.
  - apply list_elem_of_lookup. by exists 1%nat.
  - apply Hkeys.
    + unfold overridden. rewrite !not_elem_of_cons.
      repeat split; try done. apply not_elem_of_nil.
    + unfold RESERVED_PROPS. rewrite !not_elem_of_cons.
      repeat split; try done. apply not_elem_of_nil.
    + done.
    + reflexivity.
Defined.

(** ** Capture attempts *)

Section Capture.
Context `{Collaborators}.
Implicit Types (s : state) (map : mapInstance).

(** C9: while [plottingAreaRef.current] is null a capture trigger does
    nothing at all: [retrieveNewScreenShot] leaves the state as it is (no
    call to [setExportingImage], to [convertToPng] or to any other
    callback), and so does the debounced render callback. *)
Theorem no_capture_without_ref s :
  plottingAreaRef s = None ->
  retrieveNewScreenShot s = s /\
  (forall map, onMapRenderCallback map s = s).
Proof.
  intros Href.
  assert (retrieveNewScreenShot s = s) as Hsame
    by (unfold retrieveNewScreenShot; by rewrite Href).
  split; [done|]. intros map. unfold onMapRenderCallback.
  by destruct (isStyledLoaded map (now s)).
Qed.

Lemma retrieveNewScreenShot_calls s :
  calls (retrieveNewScreenShot s)
    = calls s ++ attempt (now s) (plottingAreaRef s).
Proof.
  unfold retrieveNewScreenShot, attempt.
  destruct (plottingAreaRef s) as [current|]; cbn.
  - by rewrite <- app_assoc.
  - by rewrite app_nil_r.
Qed.


End Capture.

(** ** The debounced render callback *)

Section Timers.
Implicit Types (timer : option (Z * mapInstance)) (n k : nat).

Lemma length_timers n k timer : length (timers n k timer) = n.
Proof. unfold timers. by rewrite length_insert, length_replicate. Qed.

Lemma timers_idle n k : timers n k None = replicate n None.
Proof. apply insert_replicate. Qed.

Lemma timers_call n k (wait t : Z) (args : mapInstance) timer :
  (k < n)%nat ->
  alter (debounce_call wait t args) k (timers n k timer)
    = timers n k (Some (t + wait, args)).
Proof.
  intros Hk. unfold timers. apply list_eq. intros i.
  destruct (decide (i = k)) as [->|Hne].
  - rewrite list_lookup_alter_eq.
    by rewrite !list_lookup_insert_eq by by rewrite length_replicate.
  - rewrite list_lookup_alter_ne by done.
    by rewrite !list_lookup_insert_ne by done.
Qed.

Lemma timers_expire n k (t : Z) timer :
  debounce_expire t <$> timers n k timer
    = timers n k (debounce_expire t timer).
Proof. unfold timers. by rewrite list_fmap_insert, fmap_replicate. Qed.

Lemma omap_due_idle (t : Z) n :
  omap (debounce_due t) (replicate n None) = [].
Proof. by induction n. Qed.

Lemma timers_due n k (t : Z) timer :
  (k < n)%nat ->
  omap (debounce_due t) (timers n k timer)
    = option_list (debounce_due t timer).
Proof.
  intros Hk. unfold timers. rewrite insert_replicate_lt by done.
  rewrite omap_app, omap_due_idle. cbn.
  rewrite omap_due_idle. by destruct (debounce_due t timer).
Qed.

Lemma waits_due (t : Z) timer : waits t timer -> debounce_due t timer = None.
Proof.
  destruct timer as [[deadline args]|]; [|done]. cbn. intros Hw.
  rewrite bool_decide_eq_false_2; [done|lia].
Qed.

Lemma waits_expire (t : Z) timer :
  waits t timer -> debounce_expire t timer = timer.
Proof.
  destruct timer as [[deadline args]|]; [|done]. cbn. intros Hw.
  rewrite bool_decide_eq_false_2; [done|lia].
Qed.
End Timers.

Section Debounce.
Context `{Collaborators}.
Implicit Types (s : state) (map : mapInstance) (n k g : nat).
Implicit Types (timer : option (Z * mapInstance)).

Lemma run_app s (l1 l2 : list event) : run s (l1 ++ l2) = run (run s l1) l2.
Proof. apply foldl_app. Qed.

Lemma set_now_same s (t : Z) : t = now s -> set_now t s = s.
Proof. intros ->. by destruct s. Qed.

Lemma set_debounced_same s (d : list (option (Z * mapInstance))) :
  d = debounced s -> set_debounced d s = s.
Proof. intros ->. by destruct s. Qed.

(** The render callback touches neither the clock nor the timers. *)
Lemma onMapRenderCallback_frame map s :
  now (onMapRenderCallback map s) = now s /\
  debounced (onMapRenderCallback map s) = debounced s /\
  plottingAreaRef (onMapRenderCallback map s) = plottingAreaRef s /\
  phase (onMapRenderCallback map s) = phase s.
Proof.
  unfold onMapRenderCallback, retrieveNewScreenShot.
  destruct (isStyledLoaded map (now s)); [|done].
  destruct (plottingAreaRef s) eqn:Href; cbn; by rewrite ?Href.
Qed.

Lemma onMapRenderCallback_calls map s :
  calls (onMapRenderCallback map s)
    = calls s ++ (if isStyledLoaded map (now s)
                  then attempt (now s) (plottingAreaRef s) else []).
Proof.
  unfold onMapRenderCallback.
  destruct (isStyledLoaded map (now s)).
  - apply retrieveNewScreenShot_calls.
  - by rewrite app_nil_r.
Qed.

(** A millisecond passes while at most the [k]-th timer runs. *)
Lemma tick_timers s n k timer :
  debounced s = timers n k timer -> (k < n)%nat ->
  step s Tick =
    foldl (fun s map => onMapRenderCallback map s)
      (set_debounced (timers n k (debounce_expire (now s + 1) timer))
         (set_now (now s + 1) s))
      (option_list (debounce_due (now s + 1) timer)).
Proof.
  intros Hd Hk. cbn. unfold fire_timers. cbn.
  by rewrite Hd, timers_expire, timers_due.
Qed.

(** Nothing happens as long as the timer has not run out. *)
Lemma ticks_waiting g : forall s n k timer,
  debounced s = timers n k timer -> (k < n)%nat ->
  waits (now s + Z.of_nat g) timer ->
  run s (replicate g Tick) = set_now (now s + Z.of_nat g) s.
Proof.
  induction g as [|g IH]; intros s n k timer Hd Hk Hw.
  - cbn. symmetry. apply set_now_same. lia.
  - cbn [replicate run foldl].
    assert (waits (now s + 1) timer) as Hw1
      by (destruct timer as [[deadline args]|]; cbn in *; [lia|done]).
    rewrite (tick_timers s n k timer) by done.
    rewrite waits_due, waits_expire by done. cbn [option_list option_rect foldl].
    rewrite <- Hd, (set_debounced_same (set_now _ s)) by done.
    change (foldl step ?a ?l) with (run a l).
    rewrite (IH _ n k timer); cbn; try done.
    + unfold set_now. cbn. f_equal. lia.
    + destruct timer as [[deadline args]|]; cbn in *; [lia|done].
Qed.

(** When the timer runs out the callback is called once, on the
    arguments of the last call, at the time the timer was set for. *)
Lemma ticks_fire g : forall s n k (deadline : Z) map,
  debounced s = timers n k (Some (deadline, map)) -> (k < n)%nat ->
  now s < deadline <= now s + Z.of_nat g ->
  run s (replicate g Tick) =
    set_now (now s + Z.of_nat g)
      (onMapRenderCallback map
         (set_debounced (timers n k None) (set_now deadline s))).
Proof.
  induction g as [|g IH]; intros s n k deadline map Hd Hk Ht; [lia|].
  cbn [replicate run foldl].
  rewrite (tick_timers s n k (Some (deadline, map))) by done.
  destruct (decide (deadline = now s + 1)) as [->|Hlater].
  - cbn [debounce_due debounce_expire].
    rewrite !bool_decide_eq_true_2 by lia. cbn [option_list option_rect foldl].
    set (s1 := onMapRenderCallback map _).
    change (foldl step ?a ?l) with (run a l).
    destruct (onMapRenderCallback_frame map
                (set_debounced (timers n k None) (set_now (now s + 1) s)))
      as (Hnow & Hdeb & _).
    rewrite (ticks_waiting g s1 n k None); [| done | done | done].
    subst s1. rewrite Hnow. cbn. f_equal. lia.
  - cbn [debounce_due debounce_expire].
    rewrite !bool_decide_eq_false_2 by lia. cbn [option_list option_rect foldl].
    rewrite <- Hd, (set_debounced_same (set_now _ s)) by done.
    change (foldl step ?a ?l) with (run a l).
    rewrite (IH (set_now (now s + 1) s) n k deadline map).
    + change (set_now deadline (set_now (now s + 1) s))
        with (set_now deadline s).
      cbn. f_equal. lia.
    + done.
    + done.
    + cbn. lia.
Qed.
End Debounce.

(** Arithmetic on the clock. *)
Ltac timing := cbn in *; unfold DEBOUNCE_DELAY_MS in *; lia.

Section Signals.
Context `{Collaborators}.
Implicit Types (s : state) (map : mapInstance) (n k g : nat).
Implicit Types (sigs : list (mapInstance * nat)).

Lemma step_MapRender s n k timer map :
  debounced s = timers n k timer -> (k < n)%nat ->
  step s (MapRender k map) =
    set_debounced
      (timers n k (Some (now s + DEBOUNCE_DELAY_MS, map))) s.
Proof. intros Hd Hk. cbn. by rewrite Hd, timers_call. Qed.

(** Signals less than the delay apart only move the timer. *)
Lemma signals_run sigs : forall s n k timer,
  debounced s = timers n k timer -> (k < n)%nat ->
  waits (now s) timer ->
  Forall (fun sg => Z.of_nat sg.2 < DEBOUNCE_DELAY_MS) sigs ->
  exists timer',
    run s (signals k sigs) =
      set_now (now s + duration sigs) (set_debounced (timers n k timer') s)
    /\ waits (now s + duration sigs) timer'.
Proof.
  induction sigs as [|[map g] sigs IH]; intros s n k timer Hd Hk Hw Hgaps.
  - exists timer. cbn. rewrite Z.add_0_r. split; [|done].
    rewrite <- Hd. symmetry.
    rewrite set_debounced_same by done. by apply set_now_same.
  - apply Forall_cons in Hgaps as [Hg Hgaps]. cbn in Hg.
    unfold signals. cbn [mbind list_bind].
    change (sigs ≫= _) with (signals k sigs).
    rewrite run_app. cbn [run foldl fst snd duration foldr].
    change (foldl step ?a ?l) with (run a l).
    rewrite (step_MapRender s n k timer) by done.
    set (s1 := set_debounced _ s).
    rewrite (ticks_waiting g s1 n k (Some (now s + DEBOUNCE_DELAY_MS, map)));
      [|done|done|timing].
    destruct (IH (set_now (now s1 + Z.of_nat g) s1) n k
                (Some (now s + DEBOUNCE_DELAY_MS, map)))
      as (timer' & Hrun & Hw'); [done|done|timing|done|].
    exists timer'. rewrite Hrun. cbn in *. split.
    + unfold set_now, set_debounced. cbn. f_equal.
      fold (duration sigs). lia.
    + fold (duration sigs). by rewrite Z.add_assoc.
Qed.

(** What a burst of signals on one debounced [onMapRender] leads to,
    [g] milliseconds after the last of them: one call of the render
    callback, when the delay has passed, on the map of the last
    signal. *)
Lemma debounced_run s k sigs map g :
  quiet s -> (k < length (debounced s))%nat ->
  Forall (fun sg => Z.of_nat sg.2 < DEBOUNCE_DELAY_MS) sigs ->
  let fires := now s + duration sigs + DEBOUNCE_DELAY_MS in
  let s' := run s (signals k sigs ++ MapRender k map :: replicate g Tick) in
  calls s' =
    calls s ++
      (if bool_decide (DEBOUNCE_DELAY_MS <= Z.of_nat g)
          && isStyledLoaded map fires
       then attempt fires (plottingAreaRef s) else []) /\
  (DEBOUNCE_DELAY_MS <= Z.of_nat g -> quiet s').
Proof.
  intros Hq Hk Hgaps fires s'. subst s'.
  set (n := length (debounced s)) in *.
  assert (debounced s = timers n k None) as Hd
    by by rewrite timers_idle.
  destruct (signals_run sigs s n k None Hd Hk I Hgaps)
    as (timer & Hrun & _).
  rewrite run_app, Hrun. cbn [run foldl].
  change (foldl step ?a ?l) with (run a l).
  set (s1 := set_now _ _).
  rewrite (step_MapRender s1 n k timer) by done.
  set (s2 := set_debounced _ s1).
  assert (now s2 + DEBOUNCE_DELAY_MS = fires) as Hfires by done.
  destruct (decide (DEBOUNCE_DELAY_MS <= Z.of_nat g)) as [Hlate|Hearly].
  - rewrite (ticks_fire g s2 n k fires map); [|done|done|timing].
    rewrite bool_decide_eq_true_2 by done. cbn [andb calls set_now].
    rewrite onMapRenderCallback_calls. split; [done|].
    intros _. unfold quiet. cbn.
    destruct (onMapRenderCallback_frame map
                (set_debounced (timers n k None) (set_now fires s2)))
      as (_ & -> & _).
    cbn. by rewrite length_timers, timers_idle.
  - rewrite (ticks_waiting g s2 n k (Some (fires, map)));
      [|done|done|timing].
    rewrite bool_decide_eq_false_2 by done. cbn.
    split; [by rewrite app_nil_r|done].
Qed.
End Signals.

Section Attempts.
Context `{Collaborators}.
Implicit Types (s : state) (map : mapInstance) (n k g : nat).
Implicit Types (sigs : list (mapInstance * nat)).

(** The number of capture attempts among the calls of one attempt. *)
Lemma captureAttempts_attempt s s' (t : Z) :
  calls s' = calls s ++ attempt t (plottingAreaRef s) ->
  captureAttempts s' =
    (captureAttempts s +
       match plottingAreaRef s with Some _ => 1 | None => 0 end)%nat.
Proof.
  unfold captureAttempts. intros ->. rewrite filter_app, length_app.
  by destruct (plottingAreaRef s).
Qed.

Lemma captureAttempts_same s s' :
  calls s' = calls s -> captureAttempts s' = captureAttempts s.
Proof. unfold captureAttempts. by intros ->. Qed.

(** C4 (amended): signals on the [onMapRender] of one render, each less
    than 500 ms after the one before and with no other timer running,
    lead to no call at all before 500 ms have passed since the last
    signal, and then to exactly one run of the render callback, at that
    time and on the map of the last signal: it makes one capture attempt
    if that map reports its style loaded and the ref is attached, and
    none otherwise. *)
Theorem signals_coalesce s k sigs map :
  quiet s -> (k < length (debounced s))%nat ->
  Forall (fun sg => Z.of_nat sg.2 < DEBOUNCE_DELAY_MS) sigs ->
  let fires := now s + duration sigs + DEBOUNCE_DELAY_MS in
  let after g :=
    run s (signals k sigs ++ MapRender k map :: replicate g Tick) in
  (forall g, Z.of_nat g < DEBOUNCE_DELAY_MS -> calls (after g) = calls s) /\
  (forall g, DEBOUNCE_DELAY_MS <= Z.of_nat g ->
     calls (after g) =
       calls s ++ (if isStyledLoaded map fires
                   then attempt fires (plottingAreaRef s) else []) /\
     captureAttempts (after g) =
       (captureAttempts s +
          (if isStyledLoaded map fires
           then match plottingAreaRef s with Some _ => 1 | None => 0 end
           else 0))%nat /\
     quiet (after g)).
Proof.
  intros Hq Hk Hgaps fires after. subst after. cbn beta.
  split; intros g Hg.
  - destruct (debounced_run s k sigs map g Hq Hk Hgaps) as [-> _].
    rewrite bool_decide_eq_false_2 by lia. cbn. apply app_nil_r.
  - destruct (debounced_run s k sigs map g Hq Hk Hgaps) as [Hcalls Hquiet].
    rewrite bool_decide_eq_true_2 in Hcalls by done.
    cbn [andb] in Hcalls. fold fires in Hcalls.
    split; [exact Hcalls|]. split; [|by apply Hquiet].
    destruct (isStyledLoaded map fires).
    + by apply (captureAttempts_attempt _ _ fires).
    + rewrite Nat.add_0_r. apply captureAttempts_same.
      by rewrite Hcalls, app_nil_r.
Qed.

(** C6: a render-completion signal leads to a capture attempt only if
    the map it reports has its style loaded when the debounced callback
    runs; if the map reports that its style has not loaded, the signal
    leads to no call at all. *)
Theorem capture_needs_loaded_style s k sigs map g :
  quiet s -> (k < length (debounced s))%nat ->
  Forall (fun sg => Z.of_nat sg.2 < DEBOUNCE_DELAY_MS) sigs ->
  let fires := now s + duration sigs + DEBOUNCE_DELAY_MS in
  let s' := run s (signals k sigs ++ MapRender k map :: replicate g Tick) in
  (isStyledLoaded map fires = false -> calls s' = calls s) /\
  ((captureAttempts s < captureAttempts s')%nat ->
     isStyledLoaded map fires = true) /\
  (forall s0, isStyledLoaded map (now s0) = false ->
     onMapRenderCallback map s0 = s0) /\
  (forall s0,
     (captureAttempts s0 < captureAttempts (onMapRenderCallback map s0))%nat ->
     isStyledLoaded map (now s0) = true).
Proof.
  intros Hq Hk Hgaps fires s'.
  destruct (debounced_run s k sigs map g Hq Hk Hgaps) as [Hcalls _].
  fold fires s' in Hcalls.
  assert (isStyledLoaded map fires = false -> calls s' = calls s) as Hnone.
  { intros Hl. rewrite Hcalls, Hl, andb_false_r. apply app_nil_r. }
  split; [done|]. split.
  - intros Hmore. destruct (isStyledLoaded map fires) eqn:Hl; [done|].
    rewrite (captureAttempts_same s s') in Hmore by by apply Hnone. lia.
  - split.
    + intros s0 Hl. unfold onMapRenderCallback. by rewrite Hl.
    + intros s0. unfold onMapRenderCallback.
      destruct (isStyledLoaded map (now s0)); [done|lia].
Qed.
End Attempts.

(** ** Settings changes *)

Section Settings.
Context `{Collaborators}.
Implicit Types (s : state) (e : event) (setting : exportImageSetting).

Lemma retrieveNewScreenShot_frame s :
  plottingAreaRef (retrieveNewScreenShot s) = plottingAreaRef s /\
  phase (retrieveNewScreenShot s) = phase s.
Proof.
  unfold retrieveNewScreenShot.
  destruct (plottingAreaRef s) eqn:Href; cbn; by rewrite ?Href.
Qed.


Lemma callbacks_frame (maps : list mapInstance) : forall s,
  let s' := foldl (fun s map => onMapRenderCallback map s) s maps in
  plottingAreaRef s' = plottingAreaRef s /\ phase s' = phase s.
Proof.
  induction maps as [|map maps IH]; intros s; [done|]. cbn.
  destruct (IH (onMapRenderCallback map s)) as [-> ->].
  by destruct (onMapRenderCallback_frame map s) as (_ & _ & -> & ->).
Qed.

Lemma handlers_frame (thrown : option error) (p : settled imageData) s :
  plottingAreaRef (handlers thrown p s) = plottingAreaRef s /\
  phase (handlers thrown p s) = phase s.
Proof. by destruct p, thrown. Qed.




End Settings.

(** ** The properties on a mounted component *)

Lemma no_capture_without_ref_witness :
  retrieveNewScreenShot (run mounted [@Unmount sample])
    = run mounted [@Unmount sample].
Proof.
  apply (@no_capture_without_ref sample (run mounted [@Unmount sample])).
  reflexivity.
Defined.



(** C4, as stated, fails: ten signals within 100 ms whose map reports that
    its style has not loaded lead to no capture attempt, however long one
    waits. *)
Lemma rapid_fire_without_style :
  calls (run mounted (rapid_fire_then loading_map 600)) = calls mounted /\
  captureAttempts (run mounted (rapid_fire_then loading_map 600))
    = captureAttempts mounted.
Proof.
  assert (calls (run mounted (rapid_fire_then loading_map 600))
            = calls mounted) as Hcalls.
  { destruct (@debounced_run sample mounted 0%nat (rapid_fire loading_map)
                loading_map 600%nat) as [Hcalls _].
    - reflexivity.
    - cbn. lia.
    - repeat constructor.
    - unfold rapid_fire_then. rewrite Hcalls. cbn [isStyledLoaded loading_map].
      rewrite andb_false_r. apply app_nil_r. }
  split; [exact Hcalls|]. by apply captureAttempts_same.
Qed.

Lemma signals_coalesce_witness :
  calls (run mounted (rapid_fire_then loaded_map 499)) = calls mounted /\
  captureAttempts (run mounted (rapid_fire_then loaded_map 500))
    = (captureAttempts mounted + 1)%nat.
Proof.
  destruct (@signals_coalesce sample mounted 0%nat (rapid_fire loaded_map)
              loaded_map) as [Hearly Hlate].
  - reflexivity.
  - cbn. lia.
  - repeat constructor.
  - split.
    + apply (Hearly 499%nat). reflexivity.
    + apply (Hlate 500%nat). discriminate.
Defined.

Lemma capture_needs_loaded_style_witness :
  calls (run mounted (@MapRender sample 0 loading_map :: replicate 600 Tick))
    = calls mounted.
Proof.
  destruct (@capture_needs_loaded_style sample mounted 0%nat [] loading_map
              600%nat) as [Hnone _].
  - reflexivity.
  - cbn. lia.
  - constructor.
  - apply Hnone. reflexivity.
Defined.



(** * Further properties *)

(** ** Size, scale and the props *)

Lemma gt_0_truthy (x : number) : gt x (num 0) = true -> truthy x = true.
Proof.
  destruct x as [| | |q]; cbn; try done.
  intros Hgt. apply bool_decide_eq_true in Hgt.
  apply negb_true_iff, bool_decide_eq_false.
  intros ->. apply (Qclt_not_le _ _ Hgt), Qcle_refl.
Qed.

Lemma truthy_value_truthy (v : option number) (x : number) :
  truthy_value v = Some x -> truthy x = true.
Proof.
  destruct v as [y|]; [|done]. cbn.
  destruct (truthy y) eqn:Hy; [|done]. by intros [= <-].
Qed.

Lemma or_else_is_truthy (v : option number) (d : number) :
  truthy d = true -> truthy (or_else v d) = true.
Proof.
  intros Hd. unfold or_else.
  destruct (truthy_value v) as [x|] eqn:Hv; [|done].
  by apply (truthy_value_truthy v).
Qed.

(** X1: neither component of [size] is ever 0 or [NaN], and neither is
    [scale], whatever the settings, the map state and the value of
    [getScaleFromImageSize]. *)
Theorem size_and_scale_truthy `{Collaborators} (s : exportImageSetting)
    (ms : mapState_t) :
  truthy (size_width (size s)) = true /\
  truthy (size_height (size s)) = true /\
  truthy (scale s ms) = true.
Proof.
  split; [by apply or_else_is_truthy|].
  split; [by apply or_else_is_truthy|].
  rewrite scale_unfold.
  destruct (truthy_value _) as [explicit|] eqn:He.
  - by apply (truthy_value_truthy _ _ He).
  - destruct (gt (derivedScale s ms) (num 0)) eqn:Hgt; [|done].
    by apply gt_0_truthy.
Qed.

Section MoreProps.
Context `{Collaborators}.
Implicit Types (s : exportImageSetting) (f : mapFields_t).
Implicit Types (splitMaps : option (list splitMap)) (mp : gmap string value).

(** X3: the keys of [mapProps] are the keys of [mapFields] and the seven
    keys the component writes itself: no key of the caller is dropped and
    no other key is added. *)
Theorem mapProps_keys s f splitMaps k :
  dom (mapProps s f splitMaps k)
    = dom (fields_of f) ∪ list_to_set overridden.
Proof.
  unfold mapProps, fields_of, overridden.
  rewrite !dom_insert_L. cbn.
  apply set_eq. intros x. rewrite !elem_of_union, !elem_of_singleton.
  rewrite elem_of_empty. tauto.
Qed.

Lemma mapContainers_lookup mp splitMaps (es : list element) (i : nat)
    (e : element) :
  mapContainers mp splitMaps = Some es -> es !! i = Some e ->
  (isSplit splitMaps = false /\ i = 0%nat /\
     e = createElement (mp ∪ {["index" := VIndex 0]})) \/
  (isSplit splitMaps = true /\
     exists entry, default [] splitMaps !! i = Some entry /\
                   e = pane mp i entry).
Proof.
  intros Hes Hi. destruct (isSplit splitMaps) eqn:Hsplit.
  - right. split; [done|].
    destruct splitMaps as [l|]; [|done].
    rewrite mapContainers_split in Hes by done. injection Hes as <-.
    rewrite list_lookup_imap in Hi.
    destruct (l !! i) as [entry|] eqn:Hl; [|done].
    injection Hi as <-. by exists entry.
  - left. rewrite mapContainers_single in Hes by done. injection Hes as <-.
    destruct i as [|i]; [|done]. by injection Hi as <-.
Qed.

Lemma index_not_reserved : "index" ∉ RESERVED_PROPS.
Proof.
  unfold RESERVED_PROPS. rewrite !not_elem_of_cons.
  repeat split; try done. apply not_elem_of_nil.
Qed.

(** X4: the i-th map view gets [i] as its [index], unless the spread props
    carry an [index] of their own, which then wins; in the same way its
    React key is the defined [key] the spread props carry, if they carry
    one, and otherwise [i] in the split view and none in the single view;
    its ref is the defined [ref] the spread props carry. *)
Theorem mapContainers_index mp splitMaps (es : list element) (i : nat)
    (e : element) :
  mapContainers mp splitMaps = Some es -> es !! i = Some e ->
  props e !! "index" = Some (default (VIndex i) (mp !! "index")) /\
  key e =
    defined (match mp !! "key" with
             | Some v => Some v
             | None => if isSplit splitMaps then Some (VIndex i) else None
             end) /\
  ref e = defined (mp !! "ref").
Proof.
  intros Hes Hi.
  destruct (mapContainers_lookup _ _ _ _ _ Hes Hi)
    as [(-> & -> & ->)|(-> & entry & _ & ->)]; unfold pane;
    rewrite createElement_props by apply index_not_reserved; cbn.
  - rewrite !lookup_union.
    destruct (mp !! "index"), (mp !! "key"), (mp !! "ref");
      by simplify_map_eq.
  - rewrite !lookup_insert_ne by done. rewrite !lookup_union.
    destruct (mp !! "index"), (mp !! "key"), (mp !! "ref");
      by simplify_map_eq.
Qed.

(** X5: outside the split view, that is with at most one entry in
    [splitMaps], the map view gets the props as they are under every key
    but [index] and the attributes React keeps for itself: the [layers]
    of a lone entry are not passed on as [mapLayers]. *)
Theorem single_view_props mp splitMaps (es : list element) (e : element)
    (name : string) :
  (paneCount splitMaps <= 1)%nat ->
  mapContainers mp splitMaps = Some es -> e ∈ es ->
  name <> "index" -> name ∉ RESERVED_PROPS ->
  props e !! name = mp !! name.
Proof.
  intros Hle Hes He Hname Hres.
  assert (isSplit splitMaps = false) as Hsplit.
  { destruct splitMaps as [l|]; [|done]. cbn in *.
    apply bool_decide_eq_false. lia. }
  rewrite mapContainers_single in Hes by done. injection Hes as <-.
  apply list_elem_of_singleton in He as ->.
  rewrite createElement_props by done.
  rewrite lookup_union, lookup_singleton_ne by done.
  by destruct (mp !! name).
Qed.
End MoreProps.

(** ** The calls of a component instance *)

Section Accounting.
Context `{Collaborators}.
Implicit Types (s : state) (e : event) (map : mapInstance).

Lemma length_filter_snoc {A} (p : A -> bool) (l : list A) (x : A) :
  length (filter p (l ++ [x]))
    = (length (filter p l) + (if p x then 1 else 0))%nat.
Proof.
  rewrite filter_app, length_app. f_equal. cbn.
  destruct (p x); by case_decide.
Qed.

(** Unfolds the books and counts the calls added at the end. *)
Ltac books :=
  unfold accounted, settledCaptures, count, captureAttempts in *; cbn in *;
  rewrite ?length_filter_snoc, ?length_app; cbn in *; lia.

Lemma accounted_retrieveNewScreenShot s :
  accounted s -> accounted (retrieveNewScreenShot s).
Proof.
  intros Hs. unfold retrieveNewScreenShot.
  destruct (plottingAreaRef s) as [current|]; [|done]. books.
Qed.

Lemma accounted_callbacks (maps : list mapInstance) : forall s,
  accounted s ->
  accounted (foldl (fun s map => onMapRenderCallback map s) s maps).
Proof.
  induction maps as [|map maps IH]; intros s Hs; [done|].
  cbn. apply IH. unfold onMapRenderCallback.
  destruct (isStyledLoaded map (now s)); [|done].
  by apply accounted_retrieveNewScreenShot.
Qed.

Lemma accounted_step s e : accounted s -> accounted (step s e).
Proof.
  intros Hs. pose proof Hs as (Hset & Hnote & Hpend & Hdata & Herr & Hall).
  destruct e as [current setting|setting| |k map| |promise p thrown]; cbn.
  - destruct (phase s) eqn:Hph; [|done..].
    unfold effect_settings. cbn. rewrite Hph.
    unfold retrieveNewScreenShot. cbn. books.
  - destruct (phase s) as [|deps|] eqn:Hph; [done| |done].
    unfold effect_settings. cbn. rewrite Hph.
    assert (accounted (set_phase (Mounted (deps_of setting)) (render s)))
      as Hs' by books.
    case_bool_decide; [done|].
    by apply accounted_retrieveNewScreenShot.
  - destruct (phase s) eqn:Hph; [done| |done]. books.
  - done.
  - unfold fire_timers. by apply accounted_callbacks.
  - destruct (inFlight s !! promise) as [n|] eqn:Hn; [|done].
    assert (length (delete promise (inFlight s))
              = (length (inFlight s) - 1)%nat) as Hlen
      by (apply length_delete; eauto).
    apply lookup_lt_Some in Hn.
    destruct p as [data|err]; [destruct thrown as [e|]|]; books.
Qed.

(** X6: at every moment of the life of a component instance,
    [setExportingImage] has been called once for the mount and once per
    capture attempt, [addNotification] has been called as often as
    [setExportImageError], and the capture attempts no longer pending are
    at least as many as the calls of [setExportImageDataUri], at least as
    many as the calls of [setExportImageError], and at most as many as
    both together. *)
Theorem calls_accounted (events : list event) :
  accounted (run initial events).
Proof.
  induction events as [|e events IH] using rev_ind.
  - by compute.
  - rewrite run_app. cbn. by apply accounted_step.
Qed.
End Accounting.

(** ** What is captured, and when *)

Section Provenance.
Context `{Collaborators}.
Implicit Types (s : state) (e : event) (map : mapInstance).
Implicit Types (P : node -> Prop).

Lemma traced_retrieveNewScreenShot P s :
  traced P s -> traced P (retrieveNewScreenShot s).
Proof.
  intros [Href Hcalls]. unfold retrieveNewScreenShot.
  destruct (plottingAreaRef s) as [current|] eqn:Hcur;
    [|split; [intros n Hn; congruence|done]].
  split; cbn.
  - by rewrite Hcur.
  - rewrite !Forall_app, !Forall_singleton. repeat split; try done.
    by apply Href.
Qed.

Lemma traced_callbacks P (maps : list mapInstance) : forall s,
  traced P s ->
  traced P (foldl (fun s map => onMapRenderCallback map s) s maps).
Proof.
  induction maps as [|map maps IH]; intros s Hs; [done|].
  cbn. apply IH. unfold onMapRenderCallback.
  destruct (isStyledLoaded map (now s)); [|done].
  by apply traced_retrieveNewScreenShot.
Qed.

Lemma traced_step P s e :
  (forall n setting, e = Mount n setting -> P n) ->
  traced P s -> traced P (step s e).
Proof.
  intros He Hs. pose proof Hs as [Href Hcalls].
  destruct e as [current setting|setting| |k map| |promise p thrown]; cbn.
  - destruct (phase s) eqn:Hph; [|done..].
    unfold effect_settings. cbn. rewrite Hph.
    split; cbn.
    + intros n [= <-]. by eapply He.
    + rewrite !Forall_app, !Forall_singleton. repeat split; try done.
      by eapply He.
  - destruct (phase s) as [|deps|] eqn:Hph; [done| |done].
    unfold effect_settings. cbn. rewrite Hph.
    case_bool_decide; [done|].
    by apply traced_retrieveNewScreenShot.
  - destruct (phase s); [done| |done]. by split.
  - done.
  - unfold fire_timers. by apply traced_callbacks.
  - destruct (inFlight s !! promise); [|done].
    destruct p as [data|err]; [destruct thrown as [e|]|]; split; cbn;
      try done; by rewrite !Forall_app, !Forall_singleton.
Qed.

Lemma traced_mono P (Q : node -> Prop) s :
  (forall n, P n -> Q n) -> traced P s -> traced Q s.
Proof.
  intros HPQ [Href Hcalls]. split; [by eauto|].
  eapply Forall_impl; [exact Hcalls|].
  intros [t c]. unfold capture_of. destruct c; cbn; try done.
  intros [? ?]. by split; [|apply HPQ].
Qed.

Lemma run_traced (events : list event) :
  traced (mounted_on events) (run initial events).
Proof.
  induction events as [|e events IH] using rev_ind.
  - split; [done|constructor].
  - rewrite run_app. cbn. apply traced_step.
    + intros n setting ->. exists setting.
      apply elem_of_app. right. by apply list_elem_of_singleton.
    + apply (traced_mono (mounted_on events)); [|done].
      intros n [setting Hin]. exists setting. apply elem_of_app. by left.
Qed.

(** X7: every [convertToPng] call the component ever makes is on the node
    its ref was attached to at mount, with [ELEMENT_FILTER_FUNC] as the
    filter. *)
Theorem captures_of_mounted_node (events : list event) (t : Z) (n : node)
    (filter : string -> bool) :
  (t, ConvertToPng n filter) ∈ calls (run initial events) ->
  filter = ELEMENT_FILTER_FUNC /\ mounted_on events n.
Proof.
  intros Hin. destruct (run_traced events) as [_ Hcalls].
  rewrite Forall_forall in Hcalls. exact (Hcalls _ Hin).
Qed.
End Provenance.

Section Lifecycle.
Context `{Collaborators}.
Implicit Types (s : state) (e : event) (map : mapInstance).

(** X8: mounting, in this order, attaches the ref, calls
    [setExportingImage] for the mount effect, then calls
    [setExportingImage] again and [convertToPng] on the node for the first
    capture, whose promise is then pending; the render has made one
    debounced function, whose timer is not running. *)
Theorem mount_calls s (current : node) (setting : exportImageSetting) :
  phase s = Initial ->
  let s' := step s (Mount current setting) in
  calls s' =
    calls s ++ [ (now s, SetExportingImage); (now s, SetExportingImage);
                 (now s, ConvertToPng current ELEMENT_FILTER_FUNC) ] /\
  plottingAreaRef s' = Some current /\
  phase s' = Mounted (deps_of setting) /\
  inFlight s' = inFlight s ++ [current] /\
  debounced s' = debounced s ++ [None].
Proof.
  intros Hph. cbn. rewrite Hph. unfold effect_settings. cbn. rewrite Hph.
  cbn. by rewrite <- !app_assoc.
Qed.

Lemma callbacks_without_ref (maps : list mapInstance) s :
  plottingAreaRef s = None ->
  foldl (fun s map => onMapRenderCallback map s) s maps = s.
Proof.
  intros Href. induction maps as [|map maps IH]; [done|].
  cbn. unfold onMapRenderCallback at 2, retrieveNewScreenShot.
  rewrite Href. by destruct (isStyledLoaded map (now s)).
Qed.

Lemma detached_step s e : detached s -> detached (step s e).
Proof.
  unfold detached. intros Hs.
  destruct e as [current setting|setting| |k map| |promise p thrown]; cbn.
  - destruct (phase s) eqn:Hph; rewrite ?Hph; try done.
    unfold effect_settings. cbn. by rewrite Hph.
  - destruct (phase s) as [|deps|] eqn:Hph; rewrite ?Hph; try done.
    unfold effect_settings. cbn. rewrite Hph.
    case_bool_decide; [done|].
    by rewrite (proj2 (retrieveNewScreenShot_frame _)).
  - by destruct (phase s) eqn:Hph; rewrite ?Hph.
  - done.
  - unfold fire_timers.
    match goal with
    | |- context [foldl ?f ?a ?l] =>
        destruct (callbacks_frame l a) as [Href Hph]
    end.
    cbn in Href, Hph. by rewrite Href, Hph.
  - destruct (inFlight s !! promise); [|done].
    by destruct (handlers_frame thrown p
                   (set_inFlight (delete promise (inFlight s)) s))
      as [-> ->].
Qed.

Lemma run_detached (events : list event) : detached (run initial events).
Proof.
  induction events as [|e events IH] using rev_ind; [done|].
  rewrite run_app. cbn. by apply detached_step.
Qed.

Lemma silent_step s e :
  phase s = Unmounted -> plottingAreaRef s = None -> not_Settle e ->
  calls (step s e) = calls s /\ inFlight (step s e) = inFlight s /\
  phase (step s e) = Unmounted /\ plottingAreaRef (step s e) = None.
Proof.
  intros Hph Href He.
  destruct e as [current setting|setting| |k map| |promise p thrown]; cbn;
    rewrite ?Hph; try done.
  unfold fire_timers. by rewrite callbacks_without_ref.
Qed.

(** X9: once the component is unmounted it makes no call of its own any
    more: whatever renders, render-completion signals and timers follow,
    only a capture still pending can lead to a call, when its promise
    settles. *)
Theorem unmounted_is_silent (events later : list event) :
  let s := run initial events in
  phase s = Unmounted -> Forall not_Settle later ->
  calls (run s later) = calls s /\
  inFlight (run s later) = inFlight s /\
  phase (run s later) = Unmounted.
Proof.
  intros s Hph Hlater.
  assert (plottingAreaRef s = None) as Href.
  { pose proof (run_detached events) as Hd. unfold detached in Hd.
    fold s in Hd. by rewrite Hph in Hd. }
  clearbody s. revert s Hph Href. unfold run.
  induction Hlater as [|e later He _ IH]; intros s Hph Href; [done|].
  cbn [foldl].
  destruct (silent_step s e Hph Href He) as (Hc & Hi & Hph' & Href').
  destruct (IH _ Hph' Href') as (-> & -> & ->). by rewrite Hc, Hi.
Qed.
End Lifecycle.

(** ** Timers of several debounced functions *)

Section ManyTimers.
Context `{Collaborators}.
Implicit Types (s : state) (map : mapInstance) (g : nat) (t : Z).
Implicit Types (l : list (option (Z * mapInstance))).

Lemma callback_attempts map s :
  captureAttempts (onMapRenderCallback map s) =
    (captureAttempts s +
       match plottingAreaRef s with
       | Some _ => if isStyledLoaded map (now s) then 1 else 0
       | None => 0
       end)%nat.
Proof.
  pose proof (onMapRenderCallback_calls map s) as Hcalls.
  destruct (isStyledLoaded map (now s)).
  - by apply (captureAttempts_attempt _ _ (now s)).
  - rewrite app_nil_r in Hcalls. rewrite (captureAttempts_same _ _ Hcalls).
    destruct (plottingAreaRef s); lia.
Qed.

(** The callbacks of the timers that run out together. *)
Lemma callbacks_attempts (maps : list mapInstance) : forall s,
  let s' := foldl (fun s map => onMapRenderCallback map s) s maps in
  now s' = now s /\ debounced s' = debounced s /\
  plottingAreaRef s' = plottingAreaRef s /\
  captureAttempts s' =
    (captureAttempts s +
       match plottingAreaRef s with
       | Some _ =>
           length (filter (fun map => isStyledLoaded map (now s)) maps)
       | None => 0
       end)%nat.
Proof.
  induction maps as [|map maps IH]; intros s.
  - cbn. repeat split; try done. destruct (plottingAreaRef s); lia.
  - cbn [foldl]. destruct (IH (onMapRenderCallback map s)) as (-> & -> & -> & ->).
    destruct (onMapRenderCallback_frame map s) as (-> & -> & -> & _).
    repeat split; try done. rewrite callback_attempts.
    destruct (plottingAreaRef s); [|lia].
    destruct (isStyledLoaded map (now s)) eqn:Hl.
    + rewrite filter_cons_True by by rewrite Hl. cbn. lia.
    + rewrite filter_cons_False by (rewrite Hl; exact id). lia.
Qed.

(** A millisecond passes. *)
Lemma tick_attempts s :
  let s' := step s Tick in
  now s' = now s + 1 /\
  debounced s' = debounce_expire (now s + 1) <$> debounced s /\
  plottingAreaRef s' = plottingAreaRef s /\
  captureAttempts s' =
    (captureAttempts s +
       match plottingAreaRef s with
       | Some _ => loaded_due (now s + 1) (debounced s)
       | None => 0
       end)%nat.
Proof.
  cbn. unfold fire_timers.
  match goal with
  | |- context [foldl ?f ?a ?l] =>
      destruct (callbacks_attempts l a) as (Hn & Hd & Hr & Hc)
  end.
  cbn in Hn, Hd, Hr, Hc. by rewrite Hn, Hd, Hr, Hc.
Qed.

Lemma due_attempts_0 t l : sum_list_with (due_attempts t 0) l = 0%nat.
Proof.
  induction l as [|[[deadline map]|] l IH]; cbn; [done| |done].
  rewrite IH, bool_decide_eq_false_2 by lia. done.
Qed.

(** What a timer does in [S g] milliseconds: it runs out in the first, or
    does what it does in the [g] that follow. *)
Lemma due_attempts_S t g l :
  sum_list_with (due_attempts t (S g)) l =
    (loaded_due (t + 1) l +
     sum_list_with (due_attempts (t + 1) g)
       (debounce_expire (t + 1) <$> l))%nat.
Proof.
  unfold loaded_due.
  induction l as [|[[deadline map]|] l IH]; cbn; [done| |done].
  rewrite IH. clear IH.
  destruct (decide (deadline <= t + 1)) as [Hdue|Hlater].
  - rewrite (bool_decide_eq_true_2 (deadline <= t + 1)) by done.
    rewrite Z.max_r by lia.
    rewrite (bool_decide_eq_true_2 (t + 1 <= t + Z.of_nat (S g))) by lia.
    destruct (isStyledLoaded map (t + 1)) eqn:Hl; cbn; rewrite Hl;
      case_decide; try done; cbn; lia.
  - rewrite (bool_decide_eq_false_2 (deadline <= t + 1)) by done.
    cbn. rewrite !Z.max_l by lia.
    replace (bool_decide (deadline <= t + 1 + Z.of_nat g))
      with (bool_decide (deadline <= t + Z.of_nat (S g)))
      by (apply bool_decide_ext; lia).
    lia.
Qed.

(** [g] milliseconds pass without a signal. *)
Lemma ticks_attempts g : forall s,
  let s' := run s (replicate g Tick) in
  now s' = now s + Z.of_nat g /\
  plottingAreaRef s' = plottingAreaRef s /\
  captureAttempts s' =
    (captureAttempts s +
       match plottingAreaRef s with
       | Some _ => sum_list_with (due_attempts (now s) g) (debounced s)
       | None => 0
       end)%nat.
Proof.
  induction g as [|g IH]; intros s.
  - cbn. rewrite due_attempts_0.
    split; [lia|]. split; [done|]. destruct (plottingAreaRef s); lia.
  - cbn [replicate run foldl].
    change (foldl step ?a ?l) with (run a l).
    destruct (tick_attempts s) as (Hn & Hd & Hr & Hc). cbn zeta in *.
    destruct (IH (step s Tick)) as (-> & -> & ->).
    rewrite Hn, Hd, Hr, Hc, due_attempts_S.
    split; [lia|]. split; [done|]. destruct (plottingAreaRef s); lia.
Qed.

(** X10: the timers of the debounced functions of different renders run
    independently: when [g] milliseconds pass without a signal, the
    capture attempts made are one for every debounced function whose timer
    runs out in that time on a map whose style has loaded by then, and
    none at all while the ref is null. *)
Theorem timers_fire_independently s g :
  captureAttempts (run s (replicate g Tick)) =
    (captureAttempts s +
       match plottingAreaRef s with
       | Some _ => sum_list_with (due_attempts (now s) g) (debounced s)
       | None => 0
       end)%nat.
Proof. apply ticks_attempts. Qed.
End ManyTimers.

Section TwoRenders.
Context `{Collaborators}.
Implicit Types (s : state) (map : mapInstance) (g : nat) (t : Z).
Implicit Types (l : list (option (Z * mapInstance))).

Lemma sum_alter (f : option (Z * mapInstance) -> nat)
    (h : option (Z * mapInstance) -> option (Z * mapInstance)) l :
  forall (k : nat) (x : option (Z * mapInstance)),
  l !! k = Some x ->
  (sum_list_with f (alter h k l) + f x = sum_list_with f l + f (h x))%nat.
Proof.
  induction l as [|y l IH]; intros [|k] x Hk; try done; cbn in *.
  - injection Hk as ->. lia.
  - specialize (IH k x Hk). lia.
Qed.

Lemma sum_idle (f : option (Z * mapInstance) -> nat) (n : nat) :
  f None = 0%nat -> sum_list_with f (replicate n None) = 0%nat.
Proof. intros Hf. induction n as [|n IH]; cbn; [done|]. by rewrite Hf, IH. Qed.

(** The attempts of one running timer among idle ones. *)
Lemma sum_timers (f : option (Z * mapInstance) -> nat) (n k : nat)
    (timer : option (Z * mapInstance)) :
  f None = 0%nat -> (k < n)%nat ->
  sum_list_with f (timers n k timer) = f timer.
Proof.
  intros Hf Hk. unfold timers. rewrite list_insert_alter.
  pose proof (sum_alter f (fun _ => timer) (replicate n None) k None
                (lookup_replicate_2 n None k Hk)) as Hsum.
  rewrite sum_idle, Hf in Hsum by done. cbn beta in Hsum. lia.
Qed.

(** X11: render-completion signals on the [onMapRender] functions of two
    different renders are not coalesced, however close they are: each
    function runs its own timer, so that two capture attempts follow when
    both maps report their style loaded and the ref is attached. *)
Theorem signals_on_two_renders s (k1 k2 : nat) (map1 map2 : mapInstance)
    (g1 g2 : nat) :
  quiet s -> k1 <> k2 ->
  (k1 < length (debounced s))%nat -> (k2 < length (debounced s))%nat ->
  is_Some (plottingAreaRef s) ->
  Z.of_nat g1 < DEBOUNCE_DELAY_MS -> DEBOUNCE_DELAY_MS <= Z.of_nat g2 ->
  isStyledLoaded map1 (now s + DEBOUNCE_DELAY_MS) = true ->
  isStyledLoaded map2 (now s + Z.of_nat g1 + DEBOUNCE_DELAY_MS) = true ->
  captureAttempts
    (run s (MapRender k1 map1 :: replicate g1 Tick ++
            MapRender k2 map2 :: replicate g2 Tick))
    = (captureAttempts s + 2)%nat.
Proof.
  intros Hq Hne Hk1 Hk2 [current Href] Hg1 Hg2 Hl1 Hl2.
  set (n := length (debounced s)) in *.
  assert (debounced s = timers n k1 None) as Hd by by rewrite timers_idle.
  cbn [run foldl]. change (foldl step ?a ?l) with (run a l).
  rewrite run_app, (step_MapRender s n k1 None) by done.
  set (s1 := set_debounced _ s).
  rewrite (ticks_waiting g1 s1 n k1 (Some (now s + DEBOUNCE_DELAY_MS, map1)));
    [|done|done|timing].
  cbn [run foldl]. change (foldl step ?a ?l) with (run a l).
  rewrite (proj2 (proj2 (ticks_attempts g2 _))).
  cbn [step set_now set_debounced now debounced plottingAreaRef s1].
  rewrite Href.
  set (f := due_attempts (now s + Z.of_nat g1) g2).
  pose proof (sum_alter f
                (debounce_call DEBOUNCE_DELAY_MS (now s + Z.of_nat g1) map2)
                (timers n k1 (Some (now s + DEBOUNCE_DELAY_MS, map1)))
                k2 None) as Hsum.
  rewrite (sum_timers f) in Hsum by done.
  assert (f None = 0%nat) as Hnone by done.
  assert (f (Some (now s + DEBOUNCE_DELAY_MS, map1)) = 1%nat) as Hone1.
  { subst f. cbn. rewrite Z.max_l by timing.
    rewrite bool_decide_eq_true_2 by timing. by rewrite Hl1. }
  assert (f (Some (now s + Z.of_nat g1 + DEBOUNCE_DELAY_MS, map2)) = 1%nat)
    as Hone2.
  { subst f. cbn. rewrite Z.max_l by timing.
    rewrite bool_decide_eq_true_2 by timing. by rewrite Hl2. }
  unfold debounce_call in Hsum at 2. rewrite Hnone, Hone1, Hone2 in Hsum.
  rewrite Nat.add_0_r in Hsum. rewrite Hsum.
  - done.
  - unfold timers. rewrite list_lookup_insert_ne by done.
    by apply lookup_replicate_2.
Qed.
End TwoRenders.

(** ** The further properties on concrete inputs *)

Lemma mapContainers_index_witness :
  props (pane props_with_key 1 (@SplitMap sample ["arcs"])) !! "index"
    = Some (@VIndex sample 1) /\
  key (pane props_with_key 1 (@SplitMap sample ["arcs"]))
    = Some (@VField sample "7").
Proof.
  destruct (@mapContainers_index sample props_with_key
              (Some sample_splitMaps)
              (imap (pane props_with_key) sample_splitMaps) 1
              (pane props_with_key 1 (@SplitMap sample ["arcs"])))
    as (Hindex & Hkey & _).
  - by apply mapContainers_split.
  - reflexivity.
  - split; [exact Hindex|exact Hkey].
Defined.

Lemma single_view_props_witness :
  props (createElement (props_with_layers ∪ {["index" := @VIndex sample 0]}))
    !! "mapLayers" = props_with_layers !! "mapLayers".
Proof.
  apply (@single_view_props sample props_with_layers
           (Some (take 1 sample_splitMaps))
           [ createElement
               (props_with_layers ∪ {["index" := @VIndex sample 0]}) ]).
  - cbn. lia.
  - reflexivity.
  - by apply list_elem_of_singleton.
  - discriminate.
  - apply mapLayers_not_reserved.
Defined.

Lemma captures_of_mounted_node_witness :
  ELEMENT_FILTER_FUNC = ELEMENT_FILTER_FUNC /\
  @mounted_on sample
    [@Mount sample "plot" (setting_of None None None)] "plot".
Proof.
  apply (@captures_of_mounted_node sample
           [@Mount sample "plot" (setting_of None None None)] 0 "plot"
           ELEMENT_FILTER_FUNC).
  apply list_elem_of_lookup. by exists 2%nat.
Defined.

Lemma mount_calls_witness :
  calls (step (@initial sample)
           (@Mount sample "plot" (setting_of None None None)))
    = [ (0, @SetExportingImage sample); (0, @SetExportingImage sample);
        (0, @ConvertToPng sample "plot" ELEMENT_FILTER_FUNC) ].
Proof.
  destruct (@mount_calls sample initial "plot" (setting_of None None None))
    as [Hcalls _].
  - reflexivity.
  - exact Hcalls.
Defined.

Lemma unmounted_is_silent_witness :
  calls (run (run initial unmounting) afterwards)
    = calls (run initial unmounting).
Proof.
  destruct (@unmounted_is_silent sample unmounting afterwards)
    as [Hcalls _].
  - vm_compute. reflexivity.
  - unfold afterwards. rewrite !Forall_app. split; [|split].
    + by apply Forall_replicate.
    + by repeat constructor.
    + by apply Forall_replicate.
  - exact Hcalls.
Defined.

Lemma signals_on_two_renders_witness :
  captureAttempts
    (run rerendered
       (@MapRender sample 0 loaded_map :: replicate 10 Tick ++
        @MapRender sample 1 loaded_map :: replicate 500 Tick))
    = (captureAttempts rerendered + 2)%nat.
Proof.
  apply (@signals_on_two_renders sample rerendered 0%nat 1%nat
           loaded_map loaded_map 10%nat 500%nat).
  - reflexivity.
  - discriminate.
  - vm_compute. lia.
  - vm_compute. lia.
  - by exists "plot".
  - reflexivity.
  - discriminate.
  - reflexivity.
  - reflexivity.
Defined.
